(** * LangLearn API: a shallow embedding of [main.py] and [schemas.py]

    The routes of the FastAPI application are embedded as computations in a
    small state-and-exception monad over a [world] (the process-wide store
    handle [db] and the process environment).  Documents are Python dicts,
    modelled as [gmap string value]. *)

From Stdlib Require Import ZArith NArith Ascii String.
From stdpp Require Import base option gmap strings list fin_maps pretty.

Open Scope string_scope.
Open Scope list_scope.
Open Scope Z_scope.

(** ** Values held by documents and request bodies *)

(** JSON / BSON values.  A float is carried by its IEEE-754 binary64 bit
    pattern: the program never computes on floats.  [VOid] is a BSON
    ObjectId, a 12-byte number.  Nested objects (the heterogeneous maps of
    [Quiz.questions]) are key/value sequences; the program never inspects
    them. *)
#[local] Unset Elimination Schemes.
Inductive value : Type :=
| VNone
| VBool (b : bool)
| VInt (n : Z)
| VFloat (bits : N)
| VStr (s : string)
| VOid (o : N)
| VList (xs : list value)
| VDict (kvs : list (string * value)).
#[local] Set Elimination Schemes.

(** A Python [dict] with string keys. *)
Abbreviation doc := (gmap string value).

Section value_induction.
Variable P : value → Prop.
Hypothesis HNone : P VNone.
Hypothesis HBool : ∀ b, P (VBool b).
Hypothesis HInt : ∀ n, P (VInt n).
Hypothesis HFloat : ∀ f, P (VFloat f).
Hypothesis HStr : ∀ s, P (VStr s).
Hypothesis HOid : ∀ o, P (VOid o).
Hypothesis HList : ∀ xs, Forall P xs → P (VList xs).
Hypothesis HDict : ∀ kvs, Forall (λ kv, P kv.2) kvs → P (VDict kvs).

Fixpoint value_ind_nested (v : value) : P v :=
  match v with
  | VNone => HNone
  | VBool b => HBool b
  | VInt n => HInt n
  | VFloat f => HFloat f
  | VStr s => HStr s
  | VOid o => HOid o
  | VList xs =>
      HList xs
        ((fix go (l : list value) : Forall P l :=
            match l with
            | [] => Forall_nil_2 P
            | x :: l' => Forall_cons_2 P x l' (value_ind_nested x) (go l')
            end) xs)
  | VDict kvs =>
      HDict kvs
        ((fix go (l : list (string * value)) : Forall (λ kv, P kv.2) l :=
            match l with
            | [] => Forall_nil_2 _
            | kv :: l' =>
                Forall_cons_2 (λ kv, P kv.2) kv l' (value_ind_nested kv.2) (go l')
            end) kvs)
  end.
End value_induction.

(** Structural equality test on values. *)
Fixpoint value_eqb (a b : value) {struct a} : bool :=
  match a, b with
  | VNone, VNone => true
  | VBool x, VBool y => bool_decide (x = y)
  | VInt x, VInt y => bool_decide (x = y)
  | VFloat x, VFloat y => bool_decide (x = y)
  | VStr x, VStr y => bool_decide (x = y)
  | VOid x, VOid y => bool_decide (x = y)
  | VList xs, VList ys =>
      (fix go (l1 l2 : list value) {struct l1} : bool :=
         match l1, l2 with
         | [], [] => true
         | x :: l1', y :: l2' => value_eqb x y && go l1' l2'
         | _, _ => false
         end) xs ys
  | VDict xs, VDict ys =>
      (fix go (l1 l2 : list (string * value)) {struct l1} : bool :=
         match l1, l2 with
         | [], [] => true
         | (k1, x) :: l1', (k2, y) :: l2' =>
             bool_decide (k1 = k2) && value_eqb x y && go l1' l2'
         | _, _ => false
         end) xs ys
  | _, _ => false
  end.

Lemma value_eqb_eq (a b : value) : value_eqb a b = true ↔ a = b.
Proof.
  revert b. induction a using value_ind_nested; intros [] ; simpl;
    try (split; [discriminate | intros [=]]; fail);
    try (rewrite bool_decide_eq_true; split; [intros ->; reflexivity | intros [=]; assumption]; fail);
    try tauto.
  - (* lists *)
    rename xs0 into ys. revert ys.
    induction H as [|x xs Hx Hxs IH]; intros [|y ys]; simpl;
      try (split; [discriminate | intros [=]]; fail); try tauto.
    rewrite andb_true_iff, Hx.
    specialize (IH ys). split.
    + intros [-> Hgo]. apply IH in Hgo. by injection Hgo as ->.
    + intros [= -> ->]. split; [done|]. by apply IH.
  - (* dicts *)
    rename kvs0 into ys. revert ys.
    induction H as [|[k x] xs Hx Hxs IH]; intros [|[k' y] ys]; simpl;
      try (split; [discriminate | intros [=]]; fail); try tauto.
    rewrite !andb_true_iff, bool_decide_eq_true. simpl in Hx. rewrite Hx.
    specialize (IH ys). split.
    + intros [[-> ->] Hgo]. apply IH in Hgo. by injection Hgo as ->.
    + intros [= -> -> ->]. split; [done|]. by apply IH.
Qed.

#[export] Instance value_eq_dec : EqDecision value.
Proof.
  intros a b. unfold Decision.
  destruct (value_eqb a b) eqn:E.
  - left. by apply value_eqb_eq.
  - right. intros Heq. apply value_eqb_eq in Heq. congruence.
Defined.

(** ** Python strings *)

(** Truthiness of an optional string, as tested by [if language:]: [None]
    and the empty string are both falsy. *)
Definition truthy (o : option string) : bool :=
  match o with
  | None => false
  | Some s => negb (bool_decide (s = ""))
  end.

(** Strings are kept as UTF-8 byte sequences.  A byte [10xxxxxx] continues
    the code point begun before it. *)
Definition is_continuation (c : ascii) : bool :=
  let n := N_of_ascii c in (128 <=? n)%N && (n <? 192)%N.

(** The slice [s[:n]], which counts code points. *)
Fixpoint str_prefix (n : nat) (s : string) : string :=
  match s with
  | EmptyString => EmptyString
  | String c r =>
      if is_continuation c then String c (str_prefix n r)
      else match n with
           | O => EmptyString
           | S n' => String c (str_prefix n' r)
           end
  end.

Definition hex_digit (n : N) : ascii :=
  match n with
  | 0 => "0" | 1 => "1" | 2 => "2" | 3 => "3" | 4 => "4" | 5 => "5"
  | 6 => "6" | 7 => "7" | 8 => "8" | 9 => "9" | 10 => "a" | 11 => "b"
  | 12 => "c" | 13 => "d" | 14 => "e" | _ => "f"
  end%N%char.

Fixpoint hex_digits (k : nat) (n : N) (acc : string) : string :=
  match k with
  | O => acc
  | S k' => hex_digits k' (n / 16)%N (String (hex_digit (n mod 16)%N) acc)
  end.

(** [str(ObjectId)]: the 12 bytes as 24 lowercase hexadecimal digits. *)
Definition oid_str (o : N) : string := hex_digits 24 o "".

(** [str(v)] is embedded for the values the routes stringify (ObjectIds) and
    for strings; the rendering of every other value is left to the Python
    runtime, an interface the development is parametric in. *)
Class PyRuntime := { str_other : value → string }.

Definition py_str `{PyRuntime} (v : value) : string :=
  match v with
  | VOid o => oid_str o
  | VStr s => s
  | _ => str_other v
  end.

(** ** Serialization ([main.py], [serialize]) *)

(** [if not doc: return doc]; [out = dict(doc)];
    [if "_id" in out: out["id"] = str(out.pop("_id"))]. *)
Definition serialize `{PyRuntime} (d : doc) : doc :=
  if decide (d = ∅) then d
  else
    let out := d in
    match out !! "_id" with
    | Some v => <["id" := VStr (py_str v)]> (delete "_id" out)
    | None => out
    end.

(** ** Exceptions and the monad of the routes *)

(** Modelled from the spec: the conditions the store adapter of
    [database.py] (not part of the sources) raises, [StoreUnavailable] and
    [StoreError]; with them FastAPI's [HTTPException].  All are caught by
    [except Exception]. *)
Inductive exn : Type :=
| StoreUnavailable
| StoreError (msg : string)
| HTTPException (status_code : Z) (detail : string).

(** [str(e)]: the message of a store condition; Starlette renders an
    [HTTPException] as [status: detail]. *)
Definition exn_str (e : exn) : string :=
  match e with
  | StoreUnavailable => "Database not available"
  | StoreError msg => msg
  | HTTPException st detail => pretty st +:+ ": " +:+ detail
  end.

Inductive outcome (A : Type) : Type :=
| Return (a : A)
| Raise (e : exn).
Arguments Return {A} a.
Arguments Raise {A} e.

(** A computation reads and writes a state [S] and either returns or
    raises; what it wrote before raising stays written. *)
Definition M (S A : Type) : Type := S → outcome A * S.

Definition ret {S A} (a : A) : M S A := λ s, (Return a, s).

Definition bind {S A B} (m : M S A) (k : A → M S B) : M S B :=
  λ s, match m s with
       | (Return a, s') => k a s'
       | (Raise e, s') => (Raise e, s')
       end.

Definition raise {S A} (e : exn) : M S A := λ s, (Raise e, s).

(** [try: m  except Exception as e: h e]. *)
Definition try_except {S A} (m : M S A) (h : exn → M S A) : M S A :=
  λ s, match m s with
       | (Return a, s') => (Return a, s')
       | (Raise e, s') => h e s'
       end.

Definition gets {S A} (f : S → A) : M S A := λ s, (Return (f s), s).
Definition modify {S} (f : S → S) : M S unit := λ s, (Return tt, f s).

Notation "x <- m ;; k" := (bind m (λ x, k))
  (at level 100, m at next level, right associativity, only parsing).
Notation "m ;;; k" := (bind m (λ _, k))
  (at level 100, right associativity, only parsing).

(** [for x in xs: f x]. *)
Fixpoint for_each {S A} (xs : list A) (f : A → M S unit) : M S unit :=
  match xs with
  | [] => ret tt
  | x :: xs' => f x ;;; for_each xs' f
  end.

(** ** The document store *)

(** The calls the route layer makes on the store, in order (ghost state:
    it records which arguments a route passes). *)
Inductive store_call : Type :=
| CallCreate (collection : string) (data : doc)
| CallQuery (collection : string) (filter : doc) (limit : option Z)
| CallCount (collection : string) (filter : doc)
| CallListNames.

(** Modelled from the spec: the database behind the store adapter of
    [database.py], which is not part of the sources.  Collections hold their
    documents in insertion order; [next_oid] generates identifiers;
    [pending] schedules the outcome of the coming store operations, [Some
    msg] being a lower-level fault ([StoreError]); [db_name] is the [name]
    attribute, when the handle has one. *)
Record database : Type := Database {
  db_name : option string;
  collections : gmap string (list doc);
  next_oid : N;
  pending : list (option string);
}.

(** The process: the global [db] ([None] when no connection is configured),
    [os.environ], and the log of store calls. *)
Record world : Type := World {
  db : option database;
  environ : gmap string string;
  calls : list store_call;
}.

Definition with_db (w : world) (d : database) : world :=
  World (Some d) (environ w) (calls w).

Definition with_pending (d : database) (p : list (option string)) : database :=
  Database (db_name d) (collections d) (next_oid d) p.

Definition log_call (c : store_call) : M world unit :=
  modify (λ w, World (db w) (environ w) (calls w ++ [c])).

(** Documents of a collection; a collection that was never written is
    empty. *)
Definition documents (d : database) (c : string) : list doc :=
  default [] (collections d !! c).

(** Modelled from the spec: how every operation of the store adapter of
    [database.py] (not part of the sources) runs.  It fails with
    [StoreUnavailable] when no connection was established and with
    [StoreError] on a lower-level fault; otherwise it runs on the
    database. *)
Definition store_op {A} (f : database → A * database) : M world A :=
  λ w, match db w with
       | None => (Raise StoreUnavailable, w)
       | Some d =>
           match pending d with
           | Some msg :: rest => (Raise (StoreError msg), with_db w (with_pending d rest))
           | None :: rest =>
               let '(a, d') := f (with_pending d rest) in (Return a, with_db w d')
           | [] => let '(a, d') := f d in (Return a, with_db w d')
           end
       end.

(** Modelled from the spec: the insertion behind [create_document] of
    [database.py] (not part of the sources).  The record is inserted as it
    is, at the end of its collection, under a store-generated identifier,
    whose string form is returned. *)
Definition insert_one (c : string) (data : doc) (d : database) : string * database :=
  let o := next_oid d in
  let stored := <["_id" := VOid o]> data in
  (oid_str o,
   Database (db_name d) (<[c := documents d c ++ [stored]]> (collections d))
            (o + 1)%N (pending d)).

(** Modelled from the spec: the exact match of a document against a filter
    that [get_documents] of [database.py] (not part of the sources) asks of
    the store.  Every field of the filter is a field of the document, with
    that value. *)
Definition doc_matches (q d : doc) : bool :=
  bool_decide (map_Forall (λ k v, d !! k = Some v) q).

(** Modelled from the spec: the query behind [get_documents] of
    [database.py] (not part of the sources).  The documents matching the
    filter, in insertion order, up to the limit when there is one. *)
Definition find (c : string) (q : doc) (limit : option Z) (d : database) : list doc :=
  let hits := filter (λ x, doc_matches q x = true) (documents d c) in
  match limit with
  | None => hits
  | Some n => take (Z.to_nat n) hits
  end.

(** [BaseModel.model_dump()], and a dict standing for itself. *)
Class Dumpable (A : Type) := model_dump : A → doc.
#[export] Instance dict_dumpable : Dumpable doc := λ d, d.

(** Modelled from the spec: [create_document(collection, record)] of
    [database.py], which is not part of the sources.  A model is inserted
    as its dump, a dict as it is. *)
Definition create_document {A} `{Dumpable A} (c : string) (data : A) : M world string :=
  log_call (CallCreate c (model_dump data)) ;;;
  store_op (insert_one c (model_dump data)).

(** Modelled from the spec: [get_documents(collection, filter, limit)] of
    [database.py], which is not part of the sources; [limit] is [None] when
    the caller passes none. *)
Definition get_documents (c : string) (q : doc) (limit : option Z) : M world (list doc) :=
  log_call (CallQuery c q limit) ;;;
  store_op (λ d, (find c q limit d, d)).

(** [db[c].count_documents(q)], the driver's count, a store operation like
    the others. *)
Definition count_documents (c : string) (q : doc) : M world nat :=
  log_call (CallCount c q) ;;;
  store_op (λ d, (length (find c q None d), d)).

(** [db.list_collection_names()], the names of the collections written so
    far. *)
Definition list_collection_names : M world (list string) :=
  log_call CallListNames ;;;
  store_op (λ d, ((map_to_list (collections d)).*1, d)).

(** ** Schemas ([schemas.py], and [ProgressUpdate] of [main.py]) *)

Record Lesson : Type := {
  lesson_language : string;
  lesson_title : string;
  lesson_level : string;
  lesson_content : string;
  lesson_objectives : list string;
}.

Record Quiz : Type := {
  quiz_lesson_id : string;
  quiz_questions : list (list (string * value));
}.

Record Flashcard : Type := {
  flashcard_language : string;
  flashcard_term : string;
  flashcard_definition : string;
  flashcard_example : option string;
}.

Record ProgressUpdate : Type := {
  pu_user_id : string;
  pu_lesson_id : option string;
  pu_quiz_score : option N;
  pu_completed : option bool;
  pu_streak_days : option Z;
  pu_studied_flashcards : option Z;
}.

(** An optional field as a value: [None] is the null sentinel. *)
Definition opt_value {A} (f : A → value) (o : option A) : value :=
  match o with
  | Some a => f a
  | None => VNone
  end.

#[export] Instance Lesson_dumpable : Dumpable Lesson := λ p,
  {[ "language" := VStr (lesson_language p);
     "title" := VStr (lesson_title p);
     "level" := VStr (lesson_level p);
     "content" := VStr (lesson_content p);
     "objectives" := VList (VStr <$> lesson_objectives p) ]}.

#[export] Instance Quiz_dumpable : Dumpable Quiz := λ p,
  {[ "lesson_id" := VStr (quiz_lesson_id p);
     "questions" := VList (VDict <$> quiz_questions p) ]}.

#[export] Instance Flashcard_dumpable : Dumpable Flashcard := λ p,
  {[ "language" := VStr (flashcard_language p);
     "term" := VStr (flashcard_term p);
     "definition" := VStr (flashcard_definition p);
     "example" := opt_value VStr (flashcard_example p) ]}.

#[export] Instance ProgressUpdate_dumpable : Dumpable ProgressUpdate := λ p,
  {[ "user_id" := VStr (pu_user_id p);
     "lesson_id" := opt_value VStr (pu_lesson_id p);
     "quiz_score" := opt_value VFloat (pu_quiz_score p);
     "completed" := opt_value VBool (pu_completed p);
     "streak_days" := opt_value VInt (pu_streak_days p);
     "studied_flashcards" := opt_value VInt (pu_studied_flashcards p) ]}.

(** ** Request validation *)

(** What validation reports about a field of the body. *)
Inductive field_error : Type :=
| Missing (field : string)
| WrongType (field : string).

(** A required [str] field. *)
Definition required_str (body : doc) (k : string) : field_error + string :=
  match body !! k with
  | None => inl (Missing k)
  | Some (VStr s) => inr s
  | Some _ => inl (WrongType k)
  end.

(** An [Optional[str]] field with default [None]. *)
Definition optional_str (body : doc) (k : string) : field_error + option string :=
  match body !! k with
  | None | Some VNone => inr None
  | Some (VStr s) => inr (Some s)
  | Some _ => inl (WrongType k)
  end.

Definition as_str (v : value) : option string :=
  match v with VStr s => Some s | _ => None end.

Definition as_dict (v : value) : option (list (string * value)) :=
  match v with VDict kvs => Some kvs | _ => None end.

(** A list field with [default_factory=list], its items checked by [item]. *)
Definition list_field {A} (item : value → option A) (body : doc) (k : string)
  : field_error + list A :=
  match body !! k with
  | None => inr []
  | Some (VList xs) =>
      match mapM item xs with
      | Some ys => inr ys
      | None => inl (WrongType k)
      end
  | Some _ => inl (WrongType k)
  end.

Definition errors_of {A} (r : field_error + A) : list field_error :=
  match r with
  | inl e => [e]
  | inr _ => []
  end.

(** Validation of a decoded JSON body against [Lesson], as FastAPI runs it
    before the handler from the fields of [schemas.py]: required fields
    must be present and strings, [objectives] defaults to the empty list;
    every offending field is reported; fields the schema does not declare
    are ignored. *)
Definition validate_Lesson (body : doc) : list field_error + Lesson :=
  let language := required_str body "language" in
  let title := required_str body "title" in
  let level := required_str body "level" in
  let content := required_str body "content" in
  let objectives := list_field as_str body "objectives" in
  match language, title, level, content, objectives with
  | inr a, inr b, inr c, inr d, inr e => inr (Build_Lesson a b c d e)
  | _, _, _, _, _ =>
      inl (errors_of language ++ errors_of title ++ errors_of level
           ++ errors_of content ++ errors_of objectives)
  end.

Definition validate_Quiz (body : doc) : list field_error + Quiz :=
  let lesson_id := required_str body "lesson_id" in
  let questions := list_field as_dict body "questions" in
  match lesson_id, questions with
  | inr a, inr b => inr (Build_Quiz a b)
  | _, _ => inl (errors_of lesson_id ++ errors_of questions)
  end.

Definition validate_Flashcard (body : doc) : list field_error + Flashcard :=
  let language := required_str body "language" in
  let term := required_str body "term" in
  let definition := required_str body "definition" in
  let example := optional_str body "example" in
  match language, term, definition, example with
  | inr a, inr b, inr c, inr d => inr (Build_Flashcard a b c d)
  | _, _, _, _ =>
      inl (errors_of language ++ errors_of term ++ errors_of definition
           ++ errors_of example)
  end.

(** ** Routes ([main.py]) *)

(** The bodies the routes return: [{"items": items}], [{"id": _id}], or a
    dict as it is. *)
Inductive response : Type :=
| Items (items : list doc)
| Id (id : string)
| Document (d : doc).

Definition read_root : M world response :=
  ret (Document {[ "message" := VStr "LangLearn API is running" ]}).

(** [response[k] = v] on the local dict of [test_database]. *)
Definition set_response (k : string) (v : value) : M (world * doc) unit :=
  modify (λ s, (s.1, <[k := v]> s.2)).

(** A computation on the world, run where a local dict is also in scope. *)
Definition lift_world {L A} (m : M world A) : M (world * L) A :=
  λ s, let '(r, w') := m s.1 in (r, (w', s.2)).

Definition test_database_response : doc :=
  {[ "backend" := VStr "✅ Running";
     "database" := VStr "❌ Not Available";
     "database_url" := VStr "❌ Not Set";
     "database_name" := VStr "❌ Not Set";
     "connection_status" := VStr "Not Connected";
     "collections" := VList [] ]}.

(** The statements under the outer [try] of [test_database]. *)
Definition test_database_body : M (world * doc) unit :=
  h <- gets (λ s, db s.1) ;;
  match h with
  | Some d =>
      set_response "database" (VStr "✅ Available") ;;;
      url <- gets (λ s, environ s.1 !! "DATABASE_URL") ;;
      set_response "database_url"
        (VStr (if truthy url then "✅ Set" else "❌ Not Set")) ;;;
      set_response "database_name"
        (VStr (match db_name d with Some n => n | None => "✅ Connected" end)) ;;;
      set_response "connection_status" (VStr "Connected") ;;;
      try_except
        (names <- lift_world list_collection_names ;;
         set_response "collections" (VList (VStr <$> take 10 names)) ;;;
         set_response "database" (VStr "✅ Connected & Working"))
        (λ e, set_response "database"
                (VStr ("⚠️  Connected but Error: " +:+ str_prefix 50 (exn_str e))))
  | None => set_response "database" (VStr "⚠️  Available but not initialized")
  end.

Definition test_database : M world response :=
  λ w,
    let m := try_except test_database_body
               (λ e, set_response "database"
                       (VStr ("❌ Error: " +:+ str_prefix 80 (exn_str e)))) in
    match m (w, test_database_response) with
    | (Return _, (w', response)) => (Return (Document response), w')
    | (Raise e, (w', _)) => (Raise e, w')
    end.

Definition seed_lessons : list doc :=
  [ {[ "language" := VStr "Spanish";
       "title" := VStr "Basics: Greetings";
       "level" := VStr "A1";
       "content" := VStr "Hola, ¿cómo estás? Learn common greetings and introductions.";
       "objectives" := VList [VStr "Greet someone"; VStr "Introduce yourself";
                              VStr "Say goodbye"] ]};
    {[ "language" := VStr "French";
       "title" := VStr "Basics: Numbers";
       "level" := VStr "A1";
       "content" := VStr "Un, deux, trois... Learn numbers 1-20 with pronunciation tips.";
       "objectives" := VList [VStr "Count to 20"; VStr "Ask and tell age"] ]} ].

Definition seed_cards : list doc :=
  [ {[ "language" := VStr "Spanish"; "term" := VStr "Hola";
       "definition" := VStr "Hello"; "example" := VStr "Hola, Juan!" ]};
    {[ "language" := VStr "Spanish"; "term" := VStr "Adiós";
       "definition" := VStr "Goodbye"; "example" := VStr "Adiós, hasta mañana." ]};
    {[ "language" := VStr "French"; "term" := VStr "Merci";
       "definition" := VStr "Thank you"; "example" := VStr "Merci beaucoup!" ]} ].

(** The statements under the [try] of [seed_demo]. *)
Definition seed_demo_body : M world response :=
  h <- gets db ;;
  (if h is None then raise (HTTPException 500 "Database not available") else ret tt) ;;;
  n <- count_documents "lesson" ∅ ;;
  (if decide (n = 0%nat)
   then for_each seed_lessons (λ l, create_document "lesson" l ;;; ret tt)
   else ret tt) ;;;
  n <- count_documents "flashcard" ∅ ;;
  (if decide (n = 0%nat)
   then for_each seed_cards (λ c, create_document "flashcard" c ;;; ret tt)
   else ret tt) ;;;
  ret (Document {[ "status" := VStr "ok" ]}).

Definition seed_demo : M world response :=
  try_except seed_demo_body (λ e, raise (HTTPException 500 (exn_str e))).

(** A query parameter used as a value. *)
Definition param_value (o : option string) : value := opt_value VStr o.

Definition list_lessons `{PyRuntime} (language level : option string) : M world response :=
  let q : doc := ∅ in
  let q := if truthy language then <["language" := param_value language]> q else q in
  let q := if truthy level then <["level" := param_value level]> q else q in
  docs <- get_documents "lesson" q None ;;
  ret (Items (serialize <$> docs)).

Definition create_lesson (payload : Lesson) : M world response :=
  _id <- create_document "lesson" payload ;;
  ret (Id _id).

Definition list_quizzes `{PyRuntime} (lesson_id : option string) : M world response :=
  let q : doc := ∅ in
  let q := if truthy lesson_id then <["lesson_id" := param_value lesson_id]> q else q in
  docs <- get_documents "quiz" q None ;;
  ret (Items (serialize <$> docs)).

Definition create_quiz (payload : Quiz) : M world response :=
  _id <- create_document "quiz" payload ;;
  ret (Id _id).

(** [limit: int = 50]: an absent query parameter takes the default. *)
Definition list_flashcards `{PyRuntime} (language : option string) (limit : option Z)
  : M world response :=
  let limit := default 50 limit in
  let q : doc := ∅ in
  let q := if truthy language then <["language" := param_value language]> q else q in
  docs <- get_documents "flashcard" q (Some limit) ;;
  ret (Items (serialize <$> docs)).

Definition create_flashcard (payload : Flashcard) : M world response :=
  _id <- create_document "flashcard" payload ;;
  ret (Id _id).

Definition default_progress (user_id : string) : doc :=
  {[ "user_id" := VStr user_id; "streak_days" := VInt 0; "completed" := VBool false ]}.

Definition get_progress `{PyRuntime} (user_id : string) : M world response :=
  docs <- get_documents "progress" {[ "user_id" := VStr user_id ]} (Some 1) ;;
  let items := serialize <$> docs in
  ret (Document (match items with
                 | it :: _ => it
                 | [] => default_progress user_id
                 end)).

(** [{k: v for k, v in payload.model_dump().items() if v is not None}]. *)
Definition strip_none (d : doc) : doc := filter (λ kv, kv.2 ≠ VNone) d.

Definition update_progress (payload : ProgressUpdate) : M world response :=
  let data := strip_none (model_dump payload) in
  _id <- create_document "progress" data ;;
  ret (Id _id).

(** ** The HTTP layer (FastAPI) *)

Inductive http_body : Type :=
| Json (r : response)
| Detail (detail : string)
| ValidationErrors (errs : list field_error).

Record http_response : Type := Http { status : Z; body : http_body }.

(** What FastAPI answers for a handler's outcome: 200 with the returned
    body, the status of an [HTTPException], 500 for any other exception. *)
Definition respond (r : outcome response) : http_response :=
  match r with
  | Return x => Http 200 (Json x)
  | Raise (HTTPException st detail) => Http st (Detail detail)
  | Raise _ => Http 500 (Detail "Internal Server Error")
  end.

(** Serving a request with a handler. *)
Definition serve (handler : M world response) (w : world) : http_response * world :=
  let '(r, w') := handler w in (respond r, w').

(** A route with a validated body: a body that fails validation is answered
    422 and the handler does not run. *)
Definition with_body {A} (validate : doc → list field_error + A)
    (handler : A → M world response) (body : doc) (w : world)
  : http_response * world :=
  match validate body with
  | inl errs => (Http 422 (ValidationErrors errs), w)
  | inr payload => serve (handler payload) w
  end.

Definition post_lessons : doc → world → http_response * world :=
  with_body validate_Lesson create_lesson.
Definition post_quizzes : doc → world → http_response * world :=
  with_body validate_Quiz create_quiz.
Definition post_flashcards : doc → world → http_response * world :=
  with_body validate_Flashcard create_flashcard.

(** ** The application: requests and their dispatch *)

(** The requests the application serves ([GET /schema], which only renders
    the schemas, is left out).  The body of [POST /progress] is taken as
    validated. *)
Inductive request : Type :=
| GET_root
| GET_test
| POST_seed
| GET_lessons (language level : option string)
| POST_lessons (body : doc)
| GET_quizzes (lesson_id : option string)
| POST_quizzes (body : doc)
| GET_flashcards (language : option string) (limit : option Z)
| POST_flashcards (body : doc)
| GET_progress (user_id : string)
| POST_progress (payload : ProgressUpdate).

Definition app `{PyRuntime} (r : request) : world → http_response * world :=
  match r with
  | GET_root => serve read_root
  | GET_test => serve test_database
  | POST_seed => serve seed_demo
  | GET_lessons language level => serve (list_lessons language level)
  | POST_lessons body => post_lessons body
  | GET_quizzes lesson_id => serve (list_quizzes lesson_id)
  | POST_quizzes body => post_quizzes body
  | GET_flashcards language limit => serve (list_flashcards language limit)
  | POST_flashcards body => post_flashcards body
  | GET_progress user_id => serve (get_progress user_id)
  | POST_progress payload => serve (update_progress payload)
  end.

(** The state after a sequence of requests. *)
Fixpoint run `{PyRuntime} (rs : list request) (w : world) : world :=
  match rs with
  | [] => w
  | r :: rs' => run rs' (app r w).2
  end.

(** The next store operation meets no scheduled fault. *)
Definition ready (d : database) : Prop :=
  match pending d with
  | Some _ :: _ => False
  | _ => True
  end.

(** The database once the outcome scheduled for an operation is consumed. *)
Definition advance (d : database) : database := with_pending d (tail (pending d)).

(** The documents of a collection of the world's store, if there is one. *)
Definition stored (w : world) (c : string) : list doc :=
  match db w with
  | Some d => documents d c
  | None => []
  end.

(** A stored document carries an ObjectId under [_id] and has no field
    [id]. *)
Definition well_stored (x : doc) : Prop :=
  (∃ o, x !! "_id" = Some (VOid o)) ∧ x !! "id" = None.

Definition store_wf (w : world) : Prop :=
  ∀ c x, x ∈ stored w c → well_stored x.

(** [n] calls of a route in a row; the state after the last one. *)
Fixpoint repeat_call {S A} (n : nat) (m : M S A) (s : S) : S :=
  match n with
  | O => s
  | S n' => repeat_call n' m (m s).2
  end.

(** Number of listed records whose fields, the identifier apart, are those
    of a payload. *)
Definition count_matching (fields : doc) (items : list doc) : nat :=
  length (filter (λ it, delete "id" it = fields) items).

(** A connected store with no fault scheduled. *)
Definition healthy (w : world) : Prop :=
  ∃ d, db w = Some d ∧ pending d = [].

(** Collection [c] went from [w] to [w'] by at most [k] insertions at its
    end, and by none unless it was empty. *)
Definition seeded (k : nat) (c : string) (w w' : world) : Prop :=
  ∃ new, stored w' c = stored w c ++ new
         ∧ (length new ≤ k)%nat
         ∧ (stored w c ≠ [] → new = []).

(** A collection of [w'] is the one of [w] with [new] appended, the others
    being the same. *)
Definition appended (c : string) (new : list doc) (w w' : world) : Prop :=
  stored w' c = stored w c ++ new ∧ ∀ c', c' ≠ c → stored w' c' = stored w c'.

(** What seeding may have done between [w] and [w']. *)
Definition seed_effect (w w' : world) : Prop :=
  seeded 2 "lesson" w w' ∧ seeded 3 "flashcard" w w'
  ∧ ∀ c, c ≠ "lesson" → c ≠ "flashcard" → stored w' c = stored w c.

(** The number of documents of a collection after a seeding that met no
    fault. *)
Definition seeded_length (k : nat) (before : list doc) : nat :=
  match before with
  | [] => k
  | _ => length before
  end.

(** A postcondition on the outcome and final state of a computation. *)
Definition has_post {S A} (m : M S A) (s : S) (Q : outcome A → S → Prop) : Prop :=
  Q (m s).1 (m s).2.

(** The items of a returned listing. *)
Definition items_of (r : outcome response) : list doc :=
  match r with
  | Return (Items l) => l
  | _ => []
  end.

(** The create route returns a non-empty [id] and the list route, run
    next, returns exactly one record with the given fields. *)
Definition exactly_one_listed (create list : M world response) (fields : doc)
    (w : world) : Prop :=
  ∃ i items,
    (create w).1 = Return (Id i) ∧ i ≠ ""
    ∧ (list (create w).2).1 = Return (Items items)
    ∧ count_matching fields items = 1%nat.

(** A 4xx status. *)
Definition client_error (r : http_response) : Prop := 400 ≤ status r < 500.

(** ** Sample states *)

(** A runtime that renders the values the routes never stringify as the
    empty string. *)
Definition sample_runtime : PyRuntime := {| str_other := λ _, "" |}.

Definition sample_lesson : doc :=
  {[ "_id" := VOid 10; "language" := VStr "Spanish"; "title" := VStr "Saludos";
     "level" := VStr "A1"; "content" := VStr "Hola"; "objectives" := VList [] ]}.

Definition sample_card (o : N) (language : string) : doc :=
  {[ "_id" := VOid o; "language" := VStr language; "term" := VStr "Merci";
     "definition" := VStr "Thank you"; "example" := VNone ]}.

(** A connected store holding one lesson and two flashcards. *)
Definition sample_db : database :=
  Database (Some "langlearn")
    {[ "lesson" := [sample_lesson];
       "flashcard" := [sample_card 11 "French"; sample_card 12 "Spanish"] ]}
    13 [].

Definition sample_world : world := World (Some sample_db) ∅ [].

(** A connected, empty store. *)
Definition empty_world : world := World (Some (Database (Some "langlearn") ∅ 0 [])) ∅ [].

(** No connection configured. *)
Definition offline_world : world := World None ∅ [].

(** A Lesson body without its [title]. *)
Definition untitled_lesson_body : doc :=
  {[ "language" := VStr "Spanish"; "level" := VStr "A1"; "content" := VStr "Hola" ]}.

(** A Lesson payload, and the store after it was created once. *)
Definition greetings_lesson : Lesson :=
  Build_Lesson "Spanish" "Greetings" "A1" "Hola" [].

Definition greetings_world : world := (create_lesson greetings_lesson empty_world).2.

(** A store holding 50 flashcards, and one more card to create. *)
Definition full_deck_world : world :=
  World (Some (Database (Some "langlearn")
                 {[ "flashcard" := (λ i, sample_card (N.of_nat i) "French") <$> seq 0 50 ]}
                 50 [])) ∅ [].

Definition adios_card : Flashcard := Build_Flashcard "Spanish" "Adiós" "Goodbye" None.

(** ** Further notions *)

(** What a query parameter asks of a document: nothing when the parameter
    is absent or empty, else that the field holds its value. *)
Definition selects (k : string) (param : option string) (x : doc) : Prop :=
  truthy param = true → x !! k = Some (param_value param).

(** The store cannot serve the next operation: no connection, or a fault
    is scheduled. *)
Definition failing (w : world) : Prop :=
  db w = None ∨ ∃ d msg rest, db w = Some d ∧ pending d = Some msg :: rest.

(** The requests that only read. *)
Definition is_read (r : request) : bool :=
  match r with
  | GET_root | GET_test | GET_lessons _ _ | GET_quizzes _
  | GET_flashcards _ _ | GET_progress _ => true
  | _ => false
  end.

(** The requests whose handler runs and goes straight to the store: the
    listings, the progress routes, and the create routes once their body
    is valid. *)
Definition reaches_store (r : request) : Prop :=
  match r with
  | GET_lessons _ _ | GET_quizzes _ | GET_flashcards _ _ | GET_progress _
  | POST_progress _ => True
  | POST_lessons body => ∃ p, validate_Lesson body = inr p
  | POST_quizzes body => ∃ p, validate_Quiz body = inr p
  | POST_flashcards body => ∃ p, validate_Flashcard body = inr p
  | GET_root | GET_test | POST_seed => False
  end.

(** A document has the shape the routes give the documents of a
    collection: the dump of a payload of the collection's schema (for
    Progress, without its null fields) under an ObjectId. *)
Definition schema_shaped (c : string) (x : doc) : Prop :=
  ∃ o,
    (c = "lesson" ∧ ∃ p : Lesson, x = <["_id" := VOid o]> (model_dump p))
    ∨ (c = "quiz" ∧ ∃ p : Quiz, x = <["_id" := VOid o]> (model_dump p))
    ∨ (c = "flashcard" ∧ ∃ p : Flashcard, x = <["_id" := VOid o]> (model_dump p))
    ∨ (c = "progress"
       ∧ ∃ p : ProgressUpdate, x = <["_id" := VOid o]> (strip_none (model_dump p))).

(** Every stored document satisfies [P] for its collection. *)
Definition store_all (P : string → doc → Prop) (w : world) : Prop :=
  ∀ c x, x ∈ stored w c → P c x.

(** Number of code points of a UTF-8 string. *)
Fixpoint codepoints (s : string) : nat :=
  match s with
  | EmptyString => O
  | String c r => if is_continuation c then codepoints r else S (codepoints r)
  end.

(** Two snapshots of user [u1], and a store holding them. *)
Definition snapshot (o : N) (streak : Z) : doc :=
  {[ "_id" := VOid o; "user_id" := VStr "u1"; "streak_days" := VInt streak ]}.

Definition snapshots_db : database :=
  Database None {[ "progress" := [snapshot 0 1; snapshot 1 2] ]} 2 [].

(** A valid Lesson body with a field the schema does not declare. *)
Definition authored_lesson_body : doc :=
  {[ "language" := VStr "Spanish"; "title" := VStr "Saludos"; "level" := VStr "A1";
     "content" := VStr "Hola"; "author" := VStr "me" ]}.

(** * Properties *)

(** ** Running the store operations *)

Lemma advance_ready_eq (d : database) :
  pending d = [] → advance d = d.
Proof. destruct d as [n c o p]. unfold advance, with_pending. simpl. by intros ->. Qed.

Lemma store_op_ready {A} (f : database → A * database) (w : world) (d : database) :
  db w = Some d → ready d →
  store_op f w = (Return (f (advance d)).1, with_db w (f (advance d)).2).
Proof.
  intros Hdb Hr. unfold store_op, ready in *. rewrite Hdb.
  destruct (pending d) as [|[msg|] rest] eqn:Hp; [| done |].
  - rewrite (advance_ready_eq d Hp). by destruct (f d).
  - unfold advance. rewrite Hp. simpl. by destruct (f _).
Qed.

Lemma store_op_calls {A} (f : database → A * database) (w : world) :
  calls (store_op f w).2 = calls w.
Proof.
  unfold store_op. destruct (db w) as [d|]; [|done].
  destruct (pending d) as [|[msg|] rest]; simpl; try done; by destruct (f _).
Qed.

Lemma get_documents_ready (c : string) (q : doc) (limit : option Z) (w : world) (d : database) :
  db w = Some d → ready d →
  get_documents c q limit w =
    (Return (find c q limit (advance d)),
     World (Some (advance d)) (environ w) (calls w ++ [CallQuery c q limit])).
Proof.
  intros Hdb Hr. unfold get_documents, bind, log_call, modify.
  by rewrite (store_op_ready _ _ d).
Qed.

Lemma get_documents_calls (c : string) (q : doc) (limit : option Z) (w : world) :
  calls (get_documents c q limit w).2 = calls w ++ [CallQuery c q limit].
Proof.
  unfold get_documents, bind, log_call, modify.
  match goal with |- context [store_op ?f ?w'] =>
    pose proof (store_op_calls f w') as Hc; destruct (store_op f w') as [[a|e] w'']
  end; exact Hc.
Qed.

Lemma find_advance (c : string) (q : doc) (limit : option Z) (d : database) :
  find c q limit (advance d) = find c q limit d.
Proof. done. Qed.

Lemma doc_matches_empty (d : doc) : doc_matches ∅ d = true.
Proof. unfold doc_matches. apply bool_decide_eq_true. apply map_Forall_empty. Qed.

Lemma doc_matches_singleton (k : string) (v : value) (d : doc) :
  doc_matches {[ k := v ]} d = true ↔ d !! k = Some v.
Proof.
  unfold doc_matches. rewrite bool_decide_eq_true. by rewrite map_Forall_singleton.
Qed.

Lemma find_all (c : string) (d : database) : find c ∅ None d = documents d c.
Proof.
  unfold find. induction (documents d c) as [|x l IH]; [done|].
  rewrite filter_cons. rewrite decide_True by apply doc_matches_empty. by f_equal.
Qed.

Lemma find_elem_matches (c : string) (q : doc) (limit : option Z) (d : database) (x : doc) :
  x ∈ find c q limit d → doc_matches q x = true ∧ x ∈ documents d c.
Proof.
  unfold find. intros Hx.
  assert (x ∈ filter (λ y, doc_matches q y = true) (documents d c)) as Hf.
  { destruct limit as [n|]; [|done]. by eapply subseteq_take. }
  by apply list_elem_of_filter in Hf.
Qed.

Lemma doc_matches_lookup (q d : doc) (k : string) (v : value) :
  doc_matches q d = true → q !! k = Some v → d !! k = Some v.
Proof.
  unfold doc_matches. rewrite bool_decide_eq_true. intros Hall Hq.
  by apply (Hall k v).
Qed.

(** ** Serialization *)

Lemma serialize_lookup_other `{PyRuntime} (d : doc) (k : string) :
  k ≠ "_id" → k ≠ "id" → serialize d !! k = d !! k.
Proof.
  intros H1 H2. unfold serialize. case_decide; [done|].
  destruct (d !! "_id") as [v|] eqn:E; [|done].
  rewrite lookup_insert_ne by done. by rewrite lookup_delete_ne.
Qed.

Lemma serialize_with_id `{PyRuntime} (d : doc) (v : value) :
  d !! "_id" = Some v →
  serialize d = <["id" := VStr (py_str v)]> (delete "_id" d).
Proof.
  intros Hid. unfold serialize. case_decide as He.
  - subst d. by rewrite lookup_empty in Hid.
  - by rewrite Hid.
Qed.

(** C8. Serialization of a stored document, which carries its
    store-generated ObjectId under [_id]: the result is the document with
    [_id] removed and [id] bound to the identifier's string form; [_id] is
    gone, and every field other than [_id] and [id] is as it was.  The
    routes store no document with a field [id] of its own (the schemas
    declare none); for such a document every field other than [_id] passes
    through unchanged. *)
Theorem serialize_renames_id `{PyRuntime} (d : doc) (o : N) :
  d !! "_id" = Some (VOid o) →
  serialize d = <["id" := VStr (oid_str o)]> (delete "_id" d)
  ∧ serialize d !! "id" = Some (VStr (oid_str o))
  ∧ serialize d !! "_id" = None
  ∧ (∀ k, k ≠ "_id" → k ≠ "id" → serialize d !! k = d !! k)
  ∧ (d !! "id" = None →
     ∀ k x, k ≠ "_id" → d !! k = Some x → serialize d !! k = Some x).
Proof.
  intros Hid. pose proof (serialize_with_id d _ Hid) as Hs. simpl in Hs.
  split; [exact Hs|]. split; [|split; [|split]].
  - rewrite Hs. apply lookup_insert_eq.
  - rewrite Hs. rewrite lookup_insert_ne by done. apply lookup_delete_eq.
  - intros k H1 H2. by apply serialize_lookup_other.
  - intros Hno k x Hk Hx. rewrite serialize_lookup_other; [done|done|].
    intros ->. congruence.
Qed.

Lemma serialize_renames_id_witness :
  sample_lesson !! "_id" = Some (VOid 10)
  ∧ @serialize sample_runtime sample_lesson !! "id" = Some (VStr "00000000000000000000000a")
  ∧ @serialize sample_runtime sample_lesson !! "title" = sample_lesson !! "title".
Proof.
  assert (sample_lesson !! "_id" = Some (VOid 10)) as Hid by reflexivity.
  pose proof (@serialize_renames_id sample_runtime sample_lesson 10 Hid)
    as (_ & Hnew & _ & Hother & _).
  split; [exact Hid|]. split; [exact Hnew|]. by apply Hother.
Defined.

(** ** Listing *)

Lemma lessons_filter_language (language level : option string) :
  truthy language = true →
  (let q : doc := ∅ in
   let q := if truthy language then <["language" := param_value language]> q else q in
   if truthy level then <["level" := param_value level]> q else q)
    !! "language" = Some (param_value language).
Proof.
  intros ->. simpl. case (truthy level).
  - rewrite lookup_insert_ne by done. apply lookup_insert_eq.
  - apply lookup_insert_eq.
Qed.

(** C2. On a connected store whose next operation meets no fault, and
    whatever documents it holds, listing lessons or flashcards with
    [language="Spanish"] returns items, and every item returned has its
    [language] field equal to ["Spanish"]. *)
Theorem list_language_only_spanish `{PyRuntime} (w : world) (d : database)
    (level : option string) (limit : option Z) :
  db w = Some d → ready d →
  (∃ items w', list_lessons (Some "Spanish") level w = (Return (Items items), w')
     ∧ ∀ it, it ∈ items → it !! "language" = Some (VStr "Spanish"))
  ∧ (∃ items w', list_flashcards (Some "Spanish") limit w = (Return (Items items), w')
     ∧ ∀ it, it ∈ items → it !! "language" = Some (VStr "Spanish")).
Proof.
  intros Hdb Hr. split.
  - unfold list_lessons, bind, ret.
    erewrite get_documents_ready by done. do 2 eexists. split; [reflexivity|].
    intros it Hit. apply list_elem_of_fmap in Hit as (x & -> & Hx).
    rewrite serialize_lookup_other by done.
    apply find_elem_matches in Hx as [Hm _].
    eapply doc_matches_lookup; [exact Hm|].
    by apply (lessons_filter_language (Some "Spanish") level).
  - unfold list_flashcards, bind, ret.
    erewrite get_documents_ready by done. do 2 eexists. split; [reflexivity|].
    intros it Hit. apply list_elem_of_fmap in Hit as (x & -> & Hx).
    rewrite serialize_lookup_other by done.
    apply find_elem_matches in Hx as [Hm _].
    eapply doc_matches_lookup; [exact Hm|]. simpl. apply lookup_insert_eq.
Qed.

Lemma list_language_only_spanish_witness :
  ∃ items w',
    @list_flashcards sample_runtime (Some "Spanish") None sample_world
      = (Return (Items items), w')
    ∧ ∀ it, it ∈ items → it !! "language" = Some (VStr "Spanish").
Proof.
  assert (db sample_world = Some sample_db) as Hdb by reflexivity.
  assert (ready sample_db) as Hr by (vm_compute; exact I).
  exact (proj2 (@list_language_only_spanish sample_runtime sample_world sample_db
                  None None Hdb Hr)).
Defined.

Example list_flashcards_spanish_sample :
  (@list_flashcards sample_runtime (Some "Spanish") None sample_world).1
  = Return (Items [ {[ "id" := VStr "00000000000000000000000c";
                       "language" := VStr "Spanish"; "term" := VStr "Merci";
                       "definition" := VStr "Thank you"; "example" := VNone ]} ]).
Proof. vm_compute. reflexivity. Qed.

(** ** Progress *)

Lemma find_none (c : string) (q : doc) (limit : option Z) (d : database) :
  (∀ x, x ∈ documents d c → doc_matches q x = false) → find c q limit d = [].
Proof.
  intros Hno. unfold find.
  assert (filter (λ x, doc_matches q x = true) (documents d c) = []) as ->.
  { induction (documents d c) as [|x l IH]; [done|].
    rewrite filter_cons. rewrite decide_False.
    - apply IH. intros y Hy. apply Hno. by right.
    - rewrite Hno; [done|by left]. }
  destruct limit; [apply take_nil|done].
Qed.

(** C4. On a connected store whose next operation meets no fault and which
    holds no Progress document of the user, [GET /progress/{user_id}]
    returns exactly the snapshot [{user_id, streak_days: 0, completed:
    false}], answered with status 200. *)
Theorem get_progress_default_snapshot `{PyRuntime} (w : world) (d : database)
    (user_id : string) :
  db w = Some d → ready d →
  (∀ x, x ∈ documents d "progress" → x !! "user_id" ≠ Some (VStr user_id)) →
  let snapshot : doc :=
    {[ "user_id" := VStr user_id; "streak_days" := VInt 0; "completed" := VBool false ]} in
  (get_progress user_id w).1 = Return (Document snapshot)
  ∧ (serve (get_progress user_id) w).1 = Http 200 (Json (Document snapshot)).
Proof.
  intros Hdb Hr Hno snapshot.
  assert ((get_progress user_id w).1 = Return (Document snapshot)) as Hret.
  { unfold get_progress, bind, ret. erewrite get_documents_ready by done.
    rewrite find_advance, find_none; [done|].
    intros x Hx. apply not_true_is_false. rewrite doc_matches_singleton.
    by apply Hno. }
  split; [exact Hret|].
  unfold serve. destruct (get_progress user_id w) as [r w']. simpl in *.
  by rewrite Hret.
Qed.

Lemma get_progress_default_snapshot_witness :
  (@get_progress sample_runtime "u1" sample_world).1
  = Return (Document {[ "user_id" := VStr "u1"; "streak_days" := VInt 0;
                        "completed" := VBool false ]}).
Proof.
  assert (db sample_world = Some sample_db) as Hdb by reflexivity.
  assert (ready sample_db) as Hr by (vm_compute; exact I).
  assert (∀ x, x ∈ documents sample_db "progress" → x !! "user_id" ≠ Some (VStr "u1"))
    as Hno by (intros x Hx; vm_compute in Hx; inversion Hx).
  exact (proj1 (@get_progress_default_snapshot sample_runtime sample_world sample_db
                  "u1" Hdb Hr Hno)).
Defined.

Lemma create_document_ready {A} `{Dumpable A} (c : string) (x : A) (w : world) (d : database) :
  db w = Some d → ready d →
  create_document c x w =
    (Return (oid_str (next_oid d)),
     World (Some (insert_one c (model_dump x) (advance d)).2) (environ w)
           (calls w ++ [CallCreate c (model_dump x)])).
Proof.
  intros Hdb Hr. unfold create_document, bind, log_call, modify.
  by rewrite (store_op_ready _ _ d).
Qed.

Lemma strip_none_lookup (d : doc) (k : string) (v : value) :
  strip_none d !! k = Some v ↔ d !! k = Some v ∧ v ≠ VNone.
Proof. unfold strip_none. by rewrite map_lookup_filter_Some. Qed.

Lemma find_appended_first (c : string) (q new : doc) (d d' : database) :
  documents d' c = documents d c ++ [new] →
  (∀ x, x ∈ documents d c → doc_matches q x = false) →
  doc_matches q new = true →
  find c q (Some 1) d' = [new].
Proof.
  intros Hdocs Hno Hnew. unfold find. rewrite Hdocs, filter_app.
  assert (filter (λ x, doc_matches q x = true) (documents d c) = []) as ->.
  { pose proof (find_none c q None d Hno) as Hf. exact Hf. }
  rewrite filter_cons, decide_True by done. done.
Qed.

(** C5. On a connected store whose next operation meets no fault, [POST
    /progress] appends one Progress document: the store-generated [_id]
    with exactly the fields of the payload that are not the null sentinel.
    For the payload [{user_id: "u1", streak_days: 3}] the stored document
    is [{_id, user_id: "u1", streak_days: 3}], it serializes to [{id,
    user_id: "u1", streak_days: 3}] with none of the omitted fields, and
    when the user had no snapshot before, [GET /progress/u1] returns it. *)
Theorem update_progress_strips_none `{PyRuntime} (w : world) (d : database)
    (payload : ProgressUpdate) :
  db w = Some d → ready d →
  let data := strip_none (model_dump payload) in
  let o := next_oid d in
  ∃ w' d',
    update_progress payload w = (Return (Id (oid_str o)), w')
    ∧ db w' = Some d'
    ∧ pending d' = tail (pending d)
    ∧ documents d' "progress" = documents d "progress" ++ [<["_id" := VOid o]> data]
    ∧ (∀ k v, data !! k = Some v ↔ model_dump payload !! k = Some v ∧ v ≠ VNone)
    ∧ (payload = Build_ProgressUpdate "u1" None None None (Some 3) None →
       let record : doc := {[ "id" := VStr (oid_str o); "user_id" := VStr "u1";
                              "streak_days" := VInt 3 ]} in
       <["_id" := VOid o]> data
         = {[ "_id" := VOid o; "user_id" := VStr "u1"; "streak_days" := VInt 3 ]}
       ∧ serialize (<["_id" := VOid o]> data) = record
       ∧ record !! "streak_days" = Some (VInt 3)
       ∧ (∀ k, k ∈ ["lesson_id"; "quiz_score"; "completed"; "studied_flashcards"] →
          record !! k = None)
       ∧ (ready d' →
          (∀ x, x ∈ documents d "progress" → x !! "user_id" ≠ Some (VStr "u1")) →
          (get_progress "u1" w').1 = Return (Document record))).
Proof.
  intros Hdb Hr data o.
  unfold update_progress, bind, ret. fold data.
  rewrite (create_document_ready "progress" data w d Hdb Hr).
  do 2 eexists. split; [reflexivity|]. split; [reflexivity|].
  split; [reflexivity|]. split.
  { simpl. unfold documents at 1. simpl. by rewrite lookup_insert_eq. }
  split; [intros k v; apply strip_none_lookup|].
  intros Hp. subst payload.
  pose (record := ({[ "id" := VStr (oid_str o); "user_id" := VStr "u1";
                      "streak_days" := VInt 3 ]} : doc)).
  assert (data = {[ "user_id" := VStr "u1"; "streak_days" := VInt 3 ]}) as Hdata
    by (vm_compute; reflexivity).
  assert (<["_id" := VOid o]> data
          = {[ "_id" := VOid o; "user_id" := VStr "u1"; "streak_days" := VInt 3 ]})
    as Hstored by (rewrite Hdata; reflexivity).
  assert (serialize (<["_id" := VOid o]> data) = record) as Hser.
  { rewrite (serialize_with_id _ (VOid o)) by apply lookup_insert_eq.
    rewrite Hdata. reflexivity. }
  split; [exact Hstored|]. split; [exact Hser|]. split; [reflexivity|]. split.
  { intros k Hk. repeat (apply elem_of_cons in Hk as [->|Hk]; [reflexivity|]).
    inversion Hk. }
  intros Hr' Hno.
  unfold get_progress, bind, ret. erewrite get_documents_ready; [|reflexivity|exact Hr'].
  rewrite find_advance.
  erewrite (find_appended_first "progress" _ (<["_id" := VOid o]> data) d).
  - simpl. by rewrite Hser.
  - simpl. unfold documents at 1. simpl. by rewrite lookup_insert_eq.
  - intros x Hx. apply not_true_is_false. rewrite doc_matches_singleton. by apply Hno.
  - rewrite doc_matches_singleton, Hstored. reflexivity.
Qed.

Lemma update_progress_strips_none_witness :
  ∃ w',
    update_progress (Build_ProgressUpdate "u1" None None None (Some 3) None) empty_world
      = (Return (Id "000000000000000000000000"), w')
    ∧ (@get_progress sample_runtime "u1" w').1
      = Return (Document {[ "id" := VStr "000000000000000000000000";
                            "user_id" := VStr "u1"; "streak_days" := VInt 3 ]}).
Proof.
  pose (d := Database (Some "langlearn") ∅ 0 []).
  assert (db empty_world = Some d) as Hdb by reflexivity.
  assert (ready d) as Hr by (vm_compute; exact I).
  destruct (@update_progress_strips_none sample_runtime empty_world d
              (Build_ProgressUpdate "u1" None None None (Some 3) None) Hdb Hr)
    as (w' & d' & Hup & Hdb' & Hpen & Hdocs & _ & Hpart).
  destruct (Hpart eq_refl) as (_ & _ & _ & _ & Hget).
  exists w'. split; [exact Hup|]. apply Hget.
  - unfold ready. rewrite Hpen. simpl. exact I.
  - intros x Hx. vm_compute in Hx. inversion Hx.
Defined.

(** ** Which limit a route passes to the store *)

(** C9. Whatever the state of the store, each read route makes exactly one
    store query: the Lesson and the Quiz listings pass no limit, the
    Flashcard listing passes the [limit] query parameter, 50 when the
    parameter is absent, and [GET /progress/{user_id}] passes the filter on
    [user_id] with limit 1. *)
Theorem list_routes_limits `{PyRuntime} (w : world) :
  (∀ language level, ∃ q,
      calls (list_lessons language level w).2 = calls w ++ [CallQuery "lesson" q None])
  ∧ (∀ lesson_id, ∃ q,
      calls (list_quizzes lesson_id w).2 = calls w ++ [CallQuery "quiz" q None])
  ∧ (∀ language, ∃ q,
      calls (list_flashcards language None w).2
        = calls w ++ [CallQuery "flashcard" q (Some 50)])
  ∧ (∀ language n, ∃ q,
      calls (list_flashcards language (Some n) w).2
        = calls w ++ [CallQuery "flashcard" q (Some n)])
  ∧ (∀ user_id,
      calls (get_progress user_id w).2
        = calls w ++ [CallQuery "progress" {[ "user_id" := VStr user_id ]} (Some 1)]).
Proof.
  repeat split; intros; try eexists;
    unfold list_lessons, list_quizzes, list_flashcards, get_progress, bind, ret;
    match goal with |- context [get_documents ?c ?q ?l ?w] =>
      pose proof (get_documents_calls c q l w) as Hc;
      destruct (get_documents c q l w) as [[docs|e] w']
    end; exact Hc.
Qed.

Example list_lessons_unbounded_sample :
  ∀ n : nat,
    let d := Database None {[ "lesson" := replicate n sample_lesson ]} 0 [] in
    ∃ items w',
      @list_lessons sample_runtime None None (World (Some d) ∅ [])
        = (Return (Items items), w')
      ∧ length items = n.
Proof.
  intros n d. unfold list_lessons, bind, ret.
  erewrite get_documents_ready; [|reflexivity|exact I].
  do 2 eexists. split; [reflexivity|].
  rewrite length_fmap, find_advance, find_all. unfold documents. simpl.
  rewrite lookup_singleton_eq. simpl. apply length_replicate.
Qed.

Example list_flashcards_bounded_sample :
  let d := Database None {[ "flashcard" := replicate 60 (sample_card 1 "French") ]} 0 [] in
  length (items_of (@list_flashcards sample_runtime None None (World (Some d) ∅ [])).1)
  = 50%nat.
Proof. vm_compute. reflexivity. Qed.

(** ** Empty query parameters *)

(** C10. A query parameter given as the empty string is the same as an
    absent one, for every list route and in every state: the routes build
    the same filter and so behave alike.  On a connected store whose next
    operation meets no fault, [GET /lessons?language=] and [GET
    /quizzes?lesson_id=] return every stored record, serialized, and [GET
    /flashcards?language=] the first 50 of them. *)
Theorem empty_parameter_is_absent `{PyRuntime} (w : world) :
  (∀ level, list_lessons (Some "") level w = list_lessons None level w)
  ∧ (∀ language, list_lessons language (Some "") w = list_lessons language None w)
  ∧ list_quizzes (Some "") w = list_quizzes None w
  ∧ (∀ limit, list_flashcards (Some "") limit w = list_flashcards None limit w)
  ∧ (∀ d, db w = Some d → ready d →
       (list_lessons (Some "") None w).1
         = Return (Items (serialize <$> documents d "lesson"))
       ∧ (list_quizzes (Some "") w).1
         = Return (Items (serialize <$> documents d "quiz"))
       ∧ (list_flashcards (Some "") None w).1
         = Return (Items (serialize <$> take 50 (documents d "flashcard")))).
Proof.
  split; [done|]. split; [done|]. split; [done|]. split; [done|].
  intros d Hdb Hr.
  unfold list_lessons, list_quizzes, list_flashcards, bind, ret.
  change (truthy (Some "")) with false. cbn [truthy default].
  rewrite !(get_documents_ready _ _ _ w d Hdb Hr).
  rewrite !find_advance, !find_all.
  split; [done|]. split; [done|].
  cbn [fst]. do 3 f_equal.
  change (find "flashcard" ∅ (Some 50) d)
    with (take (Z.to_nat 50) (find "flashcard" ∅ None d)).
  by rewrite find_all.
Qed.

Lemma empty_parameter_is_absent_witness :
  (@list_lessons sample_runtime (Some "") None sample_world).1
  = Return (Items [ {[ "id" := VStr "00000000000000000000000a";
                       "language" := VStr "Spanish"; "title" := VStr "Saludos";
                       "level" := VStr "A1"; "content" := VStr "Hola";
                       "objectives" := VList [] ]} ]).
Proof.
  assert (db sample_world = Some sample_db) as Hdb by reflexivity.
  assert (ready sample_db) as Hr by (vm_compute; exact I).
  pose proof (@empty_parameter_is_absent sample_runtime sample_world)
    as (_ & _ & _ & _ & Hall).
  destruct (Hall sample_db Hdb Hr) as (Hl & _ & _).
  rewrite Hl. vm_compute. reflexivity.
Defined.

(** ** The diagnostic route *)

Lemma test_database_outcome (w : world) :
  ∃ payload w',
    test_database w = (Return (Document payload), w')
    ∧ (∀ c, stored w' c = stored w c)
    ∧ (db w = None →
       payload = <["database" := VStr "⚠️  Available but not initialized"]>
                   test_database_response)
    ∧ (∀ d msg rest, db w = Some d → pending d = Some msg :: rest →
       payload !! "database"
       = Some (VStr ("⚠️  Connected but Error: " +:+ str_prefix 50 msg))).
Proof.
  destruct w as [[[name colls o [|[msg|] rest]]|] env cs];
    (do 2 eexists; split; [reflexivity|]; split; [done|]; split;
     [try done; intros [=] |]; intros d0 msg0 rest0 [= <-] [=]).
  subst. reflexivity.
Qed.

(** C6. In every state (no connection configured, a connected store, a
    store whose operation faults) [GET /test] returns a payload and raises
    nothing; it is answered 200 and leaves the stored documents as they
    were.  With no connection the payload is the initial one with
    [database] set to the not-initialized status; when listing the
    collections faults, [database] carries the error status with the first
    50 characters of the message. *)
Theorem test_database_never_raises (w : world) :
  ∃ payload w',
    test_database w = (Return (Document payload), w')
    ∧ (serve test_database w).1 = Http 200 (Json (Document payload))
    ∧ (∀ c, stored w' c = stored w c)
    ∧ (db w = None →
       payload = <["database" := VStr "⚠️  Available but not initialized"]>
                   test_database_response
       ∧ payload !! "connection_status" = Some (VStr "Not Connected"))
    ∧ (∀ d msg rest, db w = Some d → pending d = Some msg :: rest →
       payload !! "database"
       = Some (VStr ("⚠️  Connected but Error: " +:+ str_prefix 50 msg))).
Proof.
  destruct (test_database_outcome w) as (payload & w' & Hrun & Hst & Hoff & Hfault).
  exists payload, w'. split; [exact Hrun|]. split.
  { unfold serve. by rewrite Hrun. }
  split; [exact Hst|]. split; [|exact Hfault].
  intros Hnone. split; [by apply Hoff|]. rewrite (Hoff Hnone). reflexivity.
Qed.

Lemma test_database_never_raises_witness :
  ∃ payload w',
    test_database offline_world = (Return (Document payload), w')
    ∧ payload !! "database" = Some (VStr "⚠️  Available but not initialized").
Proof.
  destruct (test_database_never_raises offline_world)
    as (payload & w' & Hrun & _ & _ & Hoff & _).
  exists payload, w'. split; [exact Hrun|].
  destruct (Hoff eq_refl) as [-> _]. reflexivity.
Defined.

Example test_database_faulty_sample :
  (test_database (World (Some (Database None ∅ 0 [Some "boom"])) ∅ [])).1
  = Return (Document
      {[ "backend" := VStr "✅ Running";
         "database" := VStr "⚠️  Connected but Error: boom";
         "database_url" := VStr "❌ Not Set";
         "database_name" := VStr "✅ Connected";
         "connection_status" := VStr "Connected";
         "collections" := VList [] ]}).
Proof. vm_compute. reflexivity. Qed.

(** ** Validation *)

Lemma required_str_missing (body : doc) (k : string) :
  body !! k = None → required_str body k = inl (Missing k).
Proof. intros Hk. unfold required_str. by rewrite Hk. Qed.

Lemma with_body_rejected {A} (validate : doc → list field_error + A)
    (handler : A → M world response) (body : doc) (w : world) (errs : list field_error) :
  validate body = inl errs →
  with_body validate handler body w = (Http 422 (ValidationErrors errs), w).
Proof. intros Hv. unfold with_body. by rewrite Hv. Qed.

Lemma validate_Lesson_missing (body : doc) (k : string) :
  k ∈ ["language"; "title"; "level"; "content"] → body !! k = None →
  ∃ errs, validate_Lesson body = inl errs ∧ Missing k ∈ errs.
Proof.
  intros Hk Hnone. unfold validate_Lesson.
  repeat (apply elem_of_cons in Hk as [->|Hk]);
    [ .. | inversion Hk ];
    rewrite (required_str_missing _ _ Hnone);
    repeat match goal with
      | |- context [required_str body ?f] => destruct (required_str body f)
      | |- context [list_field ?i body ?f] => destruct (list_field i body f)
      end;
    (eexists; split; [reflexivity|]; simpl; set_solver).
Qed.

Lemma validate_Quiz_missing (body : doc) :
  body !! "lesson_id" = None →
  ∃ errs, validate_Quiz body = inl errs ∧ Missing "lesson_id" ∈ errs.
Proof.
  intros Hnone. unfold validate_Quiz.
  rewrite (required_str_missing _ _ Hnone).
  destruct (list_field as_dict body "questions");
    (eexists; split; [reflexivity|]; simpl; set_solver).
Qed.

Lemma validate_Flashcard_missing (body : doc) (k : string) :
  k ∈ ["language"; "term"; "definition"] → body !! k = None →
  ∃ errs, validate_Flashcard body = inl errs ∧ Missing k ∈ errs.
Proof.
  intros Hk Hnone. unfold validate_Flashcard.
  repeat (apply elem_of_cons in Hk as [->|Hk]);
    [ .. | inversion Hk ];
    rewrite (required_str_missing _ _ Hnone);
    repeat match goal with
      | |- context [required_str body ?f] => destruct (required_str body f)
      | |- context [optional_str body ?f] => destruct (optional_str body f)
      end;
    (eexists; split; [reflexivity|]; simpl; set_solver).
Qed.

(** C7. A create request whose body lacks a required field of its schema
    ([language], [title], [level] or [content] of a Lesson, [lesson_id] of
    a Quiz, [language], [term] or [definition] of a Flashcard) is answered
    with a client error (status 422) whose errors name the missing field;
    the state, and with it the store, is unchanged: nothing is inserted. *)
Theorem create_missing_field_rejected (body : doc) (w : world) (k : string) :
  body !! k = None →
  let rejected (r : http_response * world) :=
    client_error r.1 ∧ r.2 = w
    ∧ ∃ errs, r.1 = Http 422 (ValidationErrors errs) ∧ Missing k ∈ errs in
  (k ∈ ["language"; "title"; "level"; "content"] → rejected (post_lessons body w))
  ∧ (k = "lesson_id" → rejected (post_quizzes body w))
  ∧ (k ∈ ["language"; "term"; "definition"] → rejected (post_flashcards body w)).
Proof.
  intros Hnone rejected.
  assert (∀ r errs, r = (Http 422 (ValidationErrors errs), w) → Missing k ∈ errs →
          rejected r) as Hrej.
  { intros r errs -> He. split; [unfold client_error; simpl; lia|].
    split; [done|]. by exists errs. }
  split; [|split].
  - intros Hk. destruct (validate_Lesson_missing body k Hk Hnone) as (errs & Hv & He).
    apply (Hrej _ errs); [|exact He]. by apply with_body_rejected.
  - intros ->. destruct (validate_Quiz_missing body Hnone) as (errs & Hv & He).
    apply (Hrej _ errs); [|exact He]. by apply with_body_rejected.
  - intros Hk. destruct (validate_Flashcard_missing body k Hk Hnone) as (errs & Hv & He).
    apply (Hrej _ errs); [|exact He]. by apply with_body_rejected.
Qed.

Lemma create_missing_field_rejected_witness :
  untitled_lesson_body !! "title" = None
  ∧ client_error (post_lessons untitled_lesson_body sample_world).1
  ∧ (post_lessons untitled_lesson_body sample_world).2 = sample_world.
Proof.
  assert (untitled_lesson_body !! "title" = None) as Hnone by reflexivity.
  split; [exact Hnone|].
  destruct (proj1 (create_missing_field_rejected untitled_lesson_body sample_world
                     "title" Hnone)) as (Hc & Hw & _).
  - set_solver.
  - split; [exact Hc|exact Hw].
Defined.

Example post_lessons_untitled_sample :
  post_lessons untitled_lesson_body sample_world
  = (Http 422 (ValidationErrors [Missing "title"]), sample_world).
Proof. vm_compute. reflexivity. Qed.

(** ** A program logic for the routes *)

Lemma has_post_mono {S A} (m : M S A) (s : S) (Q R : outcome A → S → Prop) :
  has_post m s Q → (∀ r s', Q r s' → R r s') → has_post m s R.
Proof. unfold has_post. auto. Qed.

Lemma has_post_bind {S A B} (m : M S A) (k : A → M S B) (s : S)
    (Q : outcome B → S → Prop) :
  has_post m s (λ r s', match r with
                        | Return a => has_post (k a) s' Q
                        | Raise e => Q (Raise e) s'
                        end) →
  has_post (bind m k) s Q.
Proof. unfold has_post, bind. by destruct (m s) as [[a|e] s']. Qed.

Lemma has_post_try_except {S A} (m : M S A) (h : exn → M S A) (s : S)
    (Q : outcome A → S → Prop) :
  has_post m s (λ r s', match r with
                        | Return a => Q (Return a) s'
                        | Raise e => has_post (h e) s' Q
                        end) →
  has_post (try_except m h) s Q.
Proof. unfold has_post, try_except. by destruct (m s) as [[a|e] s']. Qed.

(** What a store operation leaves behind: the connection as it was, and
    the collections either untouched or as the operation made them. *)
Lemma store_op_post {A} (f : database → A * database) (w : world) (d : database) :
  db w = Some d →
  has_post (store_op f) w (λ r w',
    match r with
    | Return a => ∃ d0, pending d0 = tail (pending d)
                        ∧ collections d0 = collections d
                        ∧ next_oid d0 = next_oid d
                        ∧ a = (f d0).1 ∧ db w' = Some (f d0).2
    | Raise _ => ∃ d', db w' = Some d' ∧ collections d' = collections d
    end).
Proof.
  intros Hdb. unfold has_post, store_op. rewrite Hdb.
  destruct (pending d) as [|[msg|] rest] eqn:Hp; simpl.
  - destruct (f d) as [a d'] eqn:Hf. simpl. exists d. by rewrite Hp, Hf.
  - by eexists.
  - destruct (f (with_pending d rest)) as [a d'] eqn:Hf. simpl.
    exists (with_pending d rest). by rewrite Hf.
Qed.

Lemma appended_nil (c : string) (w w' : world) :
  appended c [] w w' ↔ ∀ c', stored w' c' = stored w c'.
Proof.
  unfold appended. rewrite app_nil_r. split.
  - intros [Hc Ho] c'. destruct (decide (c' = c)) as [->|]; auto.
  - intros Hall. split; auto.
Qed.

Lemma appended_trans (c : string) (l1 l2 : list doc) (w1 w2 w3 : world) :
  appended c l1 w1 w2 → appended c l2 w2 w3 → appended c (l1 ++ l2) w1 w3.
Proof.
  intros [H1 H1'] [H2 H2']. split.
  - by rewrite H2, H1, app_assoc.
  - intros c' Hc. by rewrite H2', H1'.
Qed.

Lemma create_document_post {A} `{Dumpable A} (c : string) (x : A) (w : world) :
  is_Some (db w) →
  has_post (create_document c x) w (λ r w',
    is_Some (db w')
    ∧ ∃ new, appended c new w w'
             ∧ (new = [] ∨ ∃ o, new = [<["_id" := VOid o]> (model_dump x)])).
Proof.
  intros [d Hdb]. unfold create_document, log_call, modify.
  apply has_post_bind. unfold has_post at 1. simpl.
  eapply has_post_mono.
  { apply (store_op_post _ _ d). exact Hdb. }
  intros [a|e] w'.
  - intros (d0 & Hp & Hc & Ho & -> & Hdb'). split; [by eexists|].
    eexists [_]. split; [|right; by eexists]. unfold appended, stored.
    rewrite Hdb'. simpl. rewrite Hdb. unfold documents. simpl. split.
    + by rewrite lookup_insert_eq, Hc.
    + intros c' Hne. by rewrite lookup_insert_ne, Hc.
  - intros (d' & Hdb' & Hc). split; [by eexists|].
    exists []. split; [|by left]. apply appended_nil.
    intros c'. unfold stored. simpl. rewrite Hdb', Hdb. unfold documents. by rewrite Hc.
Qed.

Lemma count_documents_post (c : string) (w : world) :
  is_Some (db w) →
  has_post (count_documents c ∅) w (λ r w',
    is_Some (db w') ∧ (∀ c', stored w' c' = stored w c')
    ∧ ∀ n, r = Return n → n = length (stored w c)).
Proof.
  intros [d Hdb]. unfold count_documents, log_call, modify.
  apply has_post_bind. unfold has_post at 1. simpl.
  eapply has_post_mono.
  { apply (store_op_post _ _ d). exact Hdb. }
  intros [a|e] w'.
  - intros (d0 & Hp & Hc & Ho & -> & Hdb'). cbn [fst snd] in *.
    split; [by eexists|]. split.
    + intros c'. unfold stored. rewrite Hdb'. simpl. rewrite Hdb.
      unfold documents. by rewrite Hc.
    + intros n [= <-]. pose proof (find_all c d0) as Hall. unfold find in Hall.
      rewrite Hall. unfold stored. simpl. rewrite Hdb.
      unfold documents. by rewrite Hc.
  - intros (d' & Hdb' & Hc). split; [by eexists|]. split; [|done].
    intros c'. unfold stored. simpl. rewrite Hdb', Hdb. unfold documents. by rewrite Hc.
Qed.

Lemma for_each_create_post (c : string) (xs : list doc) (w : world) :
  is_Some (db w) →
  has_post (for_each xs (λ x, create_document c x ;;; ret tt)) w (λ r w',
    is_Some (db w')
    ∧ ∃ new, appended c new w w' ∧ (length new ≤ length xs)%nat).
Proof.
  revert w. induction xs as [|x xs IH]; intros w Hdb.
  - unfold has_post. simpl. split; [done|]. exists []. split; [|done].
    by apply appended_nil.
  - simpl. apply has_post_bind, has_post_bind.
    eapply has_post_mono; [by apply create_document_post|].
    intros r w1 (Hdb1 & new1 & Happ1 & Hnew1).
    assert (length new1 ≤ 1)%nat as Hlen1.
    { destruct Hnew1 as [->|[o ->]]; simpl; lia. }
    destruct r as [a|e].
    + unfold has_post at 1. simpl.
      eapply has_post_mono; [by apply IH|].
      intros r w2 (Hdb2 & new2 & Happ2 & Hlen2). split; [done|].
      exists (new1 ++ new2). split; [by eapply appended_trans|].
      rewrite length_app. simpl. lia.
    + split; [done|]. exists new1. split; [done|]. simpl. lia.
Qed.

(** ** Seeding *)

Lemma seed_effect_same (w w' : world) :
  (∀ c, stored w' c = stored w c) → seed_effect w w'.
Proof.
  intros Hsame. repeat split; try (intros; apply Hsame);
    exists []; rewrite app_nil_r; (split; [apply Hsame|split; [simpl; lia|done]]).
Qed.

Lemma seed_effect_lessons (w w' : world) (new : list doc) :
  appended "lesson" new w w' → (length new ≤ 2)%nat →
  (stored w "lesson" ≠ [] → new = []) → seed_effect w w'.
Proof.
  intros [Hl Ho] Hlen Hempty. split; [by exists new|]. split.
  - exists []. rewrite app_nil_r. split; [by apply Ho|split; [simpl; lia|done]].
  - intros c H1 H2. by apply Ho.
Qed.

Lemma seed_effect_both (w w2 w' : world) (newL newF : list doc) :
  appended "lesson" newL w w2 → (length newL ≤ 2)%nat →
  (stored w "lesson" ≠ [] → newL = []) →
  appended "flashcard" newF w2 w' → (length newF ≤ 3)%nat →
  (stored w "flashcard" ≠ [] → newF = []) → seed_effect w w'.
Proof.
  intros [Hl Ho] Hlen Hempty [Hf Ho'] Hlen' Hempty'. split; [|split].
  - exists newL. split; [|done]. by rewrite Ho', Hl.
  - exists newF. split; [|done]. by rewrite Hf, Ho.
  - intros c H1 H2. by rewrite Ho', Ho.
Qed.

Lemma appended_same_l (c : string) (new : list doc) (w w1 w2 : world) :
  (∀ c', stored w1 c' = stored w c') → appended c new w1 w2 → appended c new w w2.
Proof.
  intros Hsame [Hc Ho]. split; [by rewrite Hc, Hsame|].
  intros c' Hne. by rewrite Ho, Hsame.
Qed.

Lemma appended_same_r (c : string) (new : list doc) (w w1 w2 : world) :
  appended c new w w1 → (∀ c', stored w2 c' = stored w1 c') → appended c new w w2.
Proof.
  intros [Hc Ho] Hsame. split; [by rewrite Hsame, Hc|].
  intros c' Hne. by rewrite Hsame, Ho.
Qed.

(** When a collection was counted empty, the loop may insert; otherwise
    nothing runs. *)
Lemma seed_collection_post (c : string) (xs : list doc) (n : nat) (w : world) :
  is_Some (db w) → n = length (stored w c) →
  has_post (if decide (n = 0%nat)
            then for_each xs (λ x, create_document c x ;;; ret tt)
            else ret tt) w (λ r w',
    is_Some (db w')
    ∧ ∃ new, appended c new w w' ∧ (length new ≤ length xs)%nat
             ∧ (stored w c ≠ [] → new = [])).
Proof.
  intros Hdb Hn. case_decide as Hz.
  - eapply has_post_mono; [by apply for_each_create_post|].
    intros r w' (Hdb' & new & Happ & Hlen). split; [done|].
    exists new. split; [done|]. split; [done|].
    intros Hne. destruct (stored w c); [done|]. simpl in Hn. lia.
  - unfold has_post. simpl. split; [done|]. exists [].
    split; [by apply appended_nil|]. split; [simpl; lia|done].
Qed.

Lemma seed_demo_post (w : world) :
  has_post seed_demo w (λ _ w', seed_effect w w').
Proof.
  unfold seed_demo. apply has_post_try_except.
  assert (∀ (e : exn) w', seed_effect w w' →
            has_post (raise (A := response) e) w' (λ _ w'', seed_effect w w''))
    as Hraise by (intros; done).
  unfold seed_demo_body. apply has_post_bind. unfold has_post at 1, gets. simpl.
  destruct (db w) as [d|] eqn:Hdb.
  2:{ apply has_post_bind. unfold has_post at 1, raise. simpl.
      apply Hraise. by apply seed_effect_same. }
  assert (is_Some (db w)) as Hsome by (by eexists).
  apply has_post_bind. unfold has_post at 1, ret. simpl.
  apply has_post_bind.
  eapply has_post_mono; [by apply (count_documents_post "lesson")|].
  intros [n|e] w1 (Hdb1 & Hsame1 & Hn); [|by apply Hraise, seed_effect_same].
  specialize (Hn n eq_refl).
  apply has_post_bind.
  eapply has_post_mono.
  { apply (seed_collection_post "lesson" seed_lessons n w1); [done|]. by rewrite Hsame1. }
  intros r2 w2 (Hdb2 & newL & HappL & HlenL & HemptyL).
  rewrite Hsame1 in HemptyL. apply (appended_same_l _ _ w) in HappL; [|done].
  change (length seed_lessons) with 2%nat in HlenL.
  destruct r2 as [[]|e]; [|by eapply Hraise, seed_effect_lessons].
  apply has_post_bind.
  eapply has_post_mono; [by apply (count_documents_post "flashcard")|].
  intros [m|e] w3 (Hdb3 & Hsame3 & Hm).
  2:{ eapply Hraise, seed_effect_lessons; [|done|done]. by eapply appended_same_r. }
  specialize (Hm m eq_refl).
  apply has_post_bind.
  eapply has_post_mono.
  { apply (seed_collection_post "flashcard" seed_cards m w3); [done|].
    by rewrite Hsame3. }
  intros r4 w4 (Hdb4 & newF & HappF & HlenF & HemptyF).
  change (length seed_cards) with 3%nat in HlenF.
  apply (appended_same_l _ _ w2) in HappF; [|done].
  assert (stored w "flashcard" ≠ [] → newF = []) as HemptyF'.
  { intros Hne. apply HemptyF. rewrite Hsame3. destruct HappL as [_ Ho].
    by rewrite Ho. }
  assert (seed_effect w w4) as Hfinal by (by eapply seed_effect_both).
  destruct r4 as [[]|e]; [|by apply Hraise].
  unfold has_post, ret. simpl. exact Hfinal.
Qed.

Lemma seeded_trans (k : nat) (c : string) (w w1 w2 : world) :
  seeded k c w w1 → seeded k c w1 w2 → seeded k c w w2.
Proof.
  intros (new1 & H1 & Hlen1 & He1) (new2 & H2 & Hlen2 & He2).
  exists (new1 ++ new2). split; [by rewrite H2, H1, app_assoc|].
  destruct new1 as [|x new1].
  - rewrite app_nil_r in H1. simpl. split; [done|].
    intros Hne. apply He2. by rewrite H1.
  - rewrite He2, app_nil_r; [|rewrite H1; by destruct (stored w c)].
    split; [done|exact He1].
Qed.

Lemma seed_effect_trans (w w1 w2 : world) :
  seed_effect w w1 → seed_effect w1 w2 → seed_effect w w2.
Proof.
  intros (Hl1 & Hf1 & Ho1) (Hl2 & Hf2 & Ho2). split; [|split].
  - by eapply seeded_trans.
  - by eapply seeded_trans.
  - intros c Hc1 Hc2. by rewrite Ho2, Ho1.
Qed.

Lemma repeat_seed_effect (n : nat) (w : world) :
  seed_effect w (repeat_call n seed_demo w).
Proof.
  revert w. induction n as [|n IH]; intros w.
  - by apply seed_effect_same.
  - simpl. eapply seed_effect_trans; [apply seed_demo_post|apply IH].
Qed.

Lemma seed_effect_nonempty (w w' : world) :
  seed_effect w w' → stored w "lesson" ≠ [] → stored w "flashcard" ≠ [] →
  ∀ c, stored w' c = stored w c.
Proof.
  intros ((newL & HL & _ & HeL) & (newF & HF & _ & HeF) & Ho) HneL HneF c.
  destruct (decide (c = "lesson")) as [->|H1].
  { by rewrite HL, (HeL HneL), app_nil_r. }
  destruct (decide (c = "flashcard")) as [->|H2].
  { by rewrite HF, (HeF HneF), app_nil_r. }
  by apply Ho.
Qed.

Lemma create_document_healthy_post {A} `{Dumpable A} (c : string) (x : A) (w : world) :
  healthy w →
  has_post (create_document c x) w (λ r w',
    (∃ i, r = Return i) ∧ healthy w' ∧ ∃ y, appended c [y] w w').
Proof.
  intros (d & Hdb & Hp). unfold has_post.
  rewrite (create_document_ready c x w d Hdb) by (unfold ready; by rewrite Hp).
  simpl. split; [by eexists|]. split.
  - eexists. split; [reflexivity|]. simpl. by rewrite Hp.
  - eexists. unfold appended, stored. simpl. rewrite Hdb. unfold documents. simpl.
    split; [by rewrite lookup_insert_eq|].
    intros c' Hne. by rewrite lookup_insert_ne.
Qed.

Lemma for_each_create_healthy_post (c : string) (xs : list doc) (w : world) :
  healthy w →
  has_post (for_each xs (λ x, create_document c x ;;; ret tt)) w (λ r w',
    r = Return tt ∧ healthy w'
    ∧ ∃ new, appended c new w w' ∧ length new = length xs).
Proof.
  revert w. induction xs as [|x xs IH]; intros w Hw.
  - unfold has_post. simpl. split; [done|]. split; [done|]. exists [].
    split; [by apply appended_nil|done].
  - simpl. apply has_post_bind, has_post_bind.
    eapply has_post_mono; [by apply create_document_healthy_post|].
    intros r w1 ([i ->] & Hw1 & y & Happ1).
    unfold has_post at 1. simpl.
    eapply has_post_mono; [by apply IH|].
    intros r w2 (-> & Hw2 & new & Happ2 & Hlen). split; [done|]. split; [done|].
    exists ([y] ++ new). split; [by eapply appended_trans|]. simpl. by rewrite Hlen.
Qed.

Lemma count_documents_healthy_post (c : string) (w : world) :
  healthy w →
  has_post (count_documents c ∅) w (λ r w',
    r = Return (length (stored w c)) ∧ healthy w' ∧ ∀ c', stored w' c' = stored w c').
Proof.
  intros (d & Hdb & Hp). unfold has_post, count_documents, bind, log_call, modify.
  rewrite (store_op_ready _ _ d) by (done || (unfold ready; by rewrite Hp)).
  cbn [fst snd]. rewrite find_advance, find_all. unfold stored. simpl. rewrite Hdb.
  split; [done|]. split; [|done]. eexists. split; [reflexivity|]. simpl. by rewrite Hp.
Qed.

Lemma seed_collection_healthy_post (c : string) (xs : list doc) (w : world) :
  healthy w →
  has_post (if decide (length (stored w c) = 0%nat)
            then for_each xs (λ x, create_document c x ;;; ret tt)
            else ret tt) w (λ r w',
    r = Return tt ∧ healthy w'
    ∧ length (stored w' c) = seeded_length (length xs) (stored w c)
    ∧ ∀ c', c' ≠ c → stored w' c' = stored w c').
Proof.
  intros Hw. case_decide as Hz.
  - eapply has_post_mono; [by apply for_each_create_healthy_post|].
    intros r w' (-> & Hw' & new & [Happ Ho] & Hlen). split; [done|]. split; [done|].
    split; [|done]. rewrite Happ. destruct (stored w c); [done|discriminate].
  - unfold has_post. simpl. split; [done|]. split; [done|]. split; [|done].
    by destruct (stored w c).
Qed.

Lemma seed_demo_healthy_post (w : world) :
  healthy w →
  has_post seed_demo w (λ r w',
    r = Return (Document {[ "status" := VStr "ok" ]})
    ∧ length (stored w' "lesson") = seeded_length 2 (stored w "lesson")
    ∧ length (stored w' "flashcard") = seeded_length 3 (stored w "flashcard")).
Proof.
  intros Hw. unfold seed_demo. apply has_post_try_except.
  unfold seed_demo_body. apply has_post_bind. unfold has_post at 1, gets. simpl.
  destruct Hw as (d & Hdb & Hp). rewrite Hdb.
  assert (healthy w) as Hw by (by exists d).
  apply has_post_bind. unfold has_post at 1, ret. simpl.
  apply has_post_bind.
  eapply has_post_mono; [by apply (count_documents_healthy_post "lesson")|].
  intros r w1 (-> & Hw1 & Hsame1).
  apply has_post_bind.
  eapply has_post_mono.
  { rewrite <- (Hsame1 "lesson").
    by apply (seed_collection_healthy_post "lesson" seed_lessons w1). }
  intros r w2 (-> & Hw2 & HlenL & Ho2).
  apply has_post_bind.
  eapply has_post_mono; [by apply (count_documents_healthy_post "flashcard")|].
  intros r w3 (-> & Hw3 & Hsame3).
  apply has_post_bind.
  eapply has_post_mono.
  { rewrite <- (Hsame3 "flashcard").
    by apply (seed_collection_healthy_post "flashcard" seed_cards w3). }
  intros r w4 (-> & Hw4 & HlenF & Ho4).
  unfold has_post, ret. simpl. split; [done|]. split.
  - rewrite Ho4, Hsame3, HlenL, Hsame1 by done. done.
  - rewrite HlenF, Hsame3, Ho2, Hsame1 by done. done.
Qed.

Lemma seeded_length_nonempty (k : nat) (before after : list doc) :
  (0 < k)%nat → length after = seeded_length k before → after ≠ [].
Proof.
  intros Hk Hlen ->. destruct before; simpl in Hlen; [lia|discriminate].
Qed.

(** C3. Seeding any number of times in a row, in any state of the store
    (faults included): the Lesson collection ends as it was plus at most 2
    documents and the Flashcard collection as it was plus at most 3, with
    nothing added to a collection that was not empty, and no other
    collection changes.  On a connected store with no fault scheduled,
    seeding answers [{status: "ok"}], leaves 2 lessons (3 flashcards) in a
    collection that was empty and a non-empty collection as it was, and
    seeding again, any number of times, changes no collection. *)
Theorem seed_demo_idempotent (w : world) (n : nat) :
  let w' := repeat_call n seed_demo w in
  seeded 2 "lesson" w w'
  ∧ seeded 3 "flashcard" w w'
  ∧ (∀ c, c ≠ "lesson" → c ≠ "flashcard" → stored w' c = stored w c)
  ∧ (healthy w →
     (seed_demo w).1 = Return (Document {[ "status" := VStr "ok" ]})
     ∧ length (stored (seed_demo w).2 "lesson") = seeded_length 2 (stored w "lesson")
     ∧ length (stored (seed_demo w).2 "flashcard")
       = seeded_length 3 (stored w "flashcard")
     ∧ ∀ c, stored (repeat_call (S n) seed_demo w) c = stored (seed_demo w).2 c).
Proof.
  intros w'. destruct (repeat_seed_effect n w) as (HL & HF & Ho).
  split; [exact HL|]. split; [exact HF|]. split; [exact Ho|].
  intros Hw. destruct (seed_demo_healthy_post w Hw) as (Hret & HlenL & HlenF).
  split; [exact Hret|]. split; [exact HlenL|]. split; [exact HlenF|].
  simpl. apply seed_effect_nonempty.
  - apply repeat_seed_effect.
  - eapply seeded_length_nonempty; [|exact HlenL]. lia.
  - eapply seeded_length_nonempty; [|exact HlenF]. lia.
Qed.

Lemma seed_demo_idempotent_witness :
  healthy empty_world
  ∧ length (stored (seed_demo empty_world).2 "lesson") = 2%nat
  ∧ length (stored (seed_demo empty_world).2 "flashcard") = 3%nat
  ∧ ∀ c, stored (repeat_call 3 seed_demo empty_world) c
         = stored (seed_demo empty_world).2 c.
Proof.
  assert (healthy empty_world) as Hw by (eexists; split; reflexivity).
  split; [exact Hw|].
  destruct (seed_demo_idempotent empty_world 2) as (_ & _ & _ & Hh).
  destruct (Hh Hw) as (_ & HlenL & HlenF & Hsame).
  split; [exact HlenL|]. split; [exact HlenF|exact Hsame].
Defined.

Example seed_demo_twice_sample :
  stored (repeat_call 2 seed_demo empty_world) "lesson"
  = [ <["_id" := VOid 0]> (seed_lessons !!! 0%nat);
      <["_id" := VOid 1]> (seed_lessons !!! 1%nat) ]
  ∧ length (stored (repeat_call 2 seed_demo empty_world) "flashcard") = 3%nat.
Proof. split; vm_compute; reflexivity. Qed.

(** A fault after the first insertion: the next seeding inserts nothing. *)
Example seed_demo_fault_sample :
  let w := World (Some (Database None ∅ 0 [None; None; Some "timeout"])) ∅ [] in
  (seed_demo w).1 = Raise (HTTPException 500 "timeout")
  ∧ length (stored (seed_demo w).2 "lesson") = 1%nat
  ∧ length (stored (repeat_call 2 seed_demo w) "lesson") = 1%nat.
Proof. repeat split; vm_compute; reflexivity. Qed.

(** ** Create, then list *)

Lemma hex_digits_length (k : nat) (n : N) (acc : string) :
  String.length (hex_digits k n acc) = (k + String.length acc)%nat.
Proof.
  revert n acc. induction k as [|k IH]; intros n acc; [done|].
  simpl. rewrite IH. simpl. lia.
Qed.

Lemma oid_str_nonempty (o : N) : oid_str o ≠ "".
Proof.
  intros Heq. pose proof (hex_digits_length 24 o "") as Hlen.
  unfold oid_str in Heq. rewrite Heq in Hlen. discriminate.
Qed.

Lemma serialize_stored `{PyRuntime} (fields : doc) (o : N) :
  fields !! "_id" = None →
  serialize (<["_id" := VOid o]> fields) = <["id" := VStr (oid_str o)]> fields.
Proof.
  intros Hno. rewrite (serialize_with_id _ (VOid o)) by apply lookup_insert_eq.
  simpl. by rewrite delete_insert_id.
Qed.

Lemma count_matching_app (fields : doc) (l1 l2 : list doc) :
  count_matching fields (l1 ++ l2)
  = (count_matching fields l1 + count_matching fields l2)%nat.
Proof. unfold count_matching. by rewrite filter_app, length_app. Qed.

Lemma count_matching_record (fields : doc) (i : string) :
  fields !! "id" = None →
  count_matching fields [<["id" := VStr i]> fields] = 1%nat.
Proof.
  intros Hno. unfold count_matching. rewrite filter_cons, decide_True; [done|].
  by rewrite delete_insert_id.
Qed.

(** The query that follows a creation sees the new document last. *)
Lemma create_then_query {A} `{Dumpable A} (c : string) (x : A) (limit : option Z)
    (w : world) (d : database) :
  db w = Some d → ready d → ready (advance d) →
  (create_document c x w).1 = Return (oid_str (next_oid d))
  ∧ (get_documents c ∅ limit (create_document c x w).2).1
    = Return (let all := documents d c ++ [<["_id" := VOid (next_oid d)]> (model_dump x)] in
              match limit with
              | None => all
              | Some n => take (Z.to_nat n) all
              end).
Proof.
  intros Hdb Hr Hr'. rewrite (create_document_ready c x w d Hdb Hr).
  split; [done|]. cbn [fst snd].
  erewrite get_documents_ready; [|reflexivity|exact Hr'].
  cbn [fst]. f_equal. rewrite find_advance.
  pose proof (find_all c (insert_one c (model_dump x) (advance d)).2) as Hall.
  assert (documents (insert_one c (model_dump x) (advance d)).2 c
          = documents d c ++ [<["_id" := VOid (next_oid d)]> (model_dump x)]) as Hdocs.
  { unfold documents at 1. simpl. by rewrite lookup_insert_eq. }
  rewrite Hdocs in Hall. unfold find in *. cbn zeta. rewrite Hall.
  by destruct limit.
Qed.

(** The schemas declare no field named [_id] or [id]. *)
Lemma Lesson_dump_no_id (p : Lesson) :
  model_dump p !! "_id" = None ∧ model_dump p !! "id" = None.
Proof. destruct p. split; reflexivity. Qed.

Lemma Quiz_dump_no_id (p : Quiz) :
  model_dump p !! "_id" = None ∧ model_dump p !! "id" = None.
Proof. destruct p. split; reflexivity. Qed.

Lemma Flashcard_dump_no_id (p : Flashcard) :
  model_dump p !! "_id" = None ∧ model_dump p !! "id" = None.
Proof. destruct p. split; reflexivity. Qed.

Lemma create_then_list_items `{PyRuntime} {A} `{Dumpable A} (c : string) (x : A)
    (w : world) (d : database) :
  db w = Some d → ready d → ready (advance d) →
  model_dump x !! "_id" = None → model_dump x !! "id" = None →
  let i := oid_str (next_oid d) in
  let before := serialize <$> documents d c in
  let record := <["id" := VStr i]> (model_dump x) in
  (create_document c x w).1 = Return i
  ∧ (get_documents c ∅ None (create_document c x w).2).1
    = Return (documents d c ++ [<["_id" := VOid (next_oid d)]> (model_dump x)])
  ∧ serialize <$> (documents d c ++ [<["_id" := VOid (next_oid d)]> (model_dump x)])
    = before ++ [record]
  ∧ count_matching (model_dump x) (before ++ [record])
    = S (count_matching (model_dump x) before).
Proof.
  intros Hdb Hr Hr' Hno Hno' i before record.
  destruct (create_then_query c x None w d Hdb Hr Hr') as [Hc Hq].
  split; [exact Hc|]. split; [exact Hq|]. split.
  - rewrite fmap_app. simpl. by rewrite serialize_stored.
  - unfold record. rewrite count_matching_app, count_matching_record by done. lia.
Qed.

(** C1, as amended.  On a connected store whose next two operations meet no
    fault, for every Lesson, Quiz or Flashcard payload: the create route
    returns a non-empty string [id]; the unfiltered list that follows
    returns the records listed before and then one new record, which
    carries that [id] and otherwise exactly the submitted fields, so that
    the records matching the submitted fields are one more than before
    (exactly one when none matched before).  For a Flashcard this is so
    when fewer than 50 flashcards were stored; from 50 on, the default
    limit leaves the list as it was before the create. *)
Theorem create_then_list_one_more `{PyRuntime} (w : world) (d : database) :
  db w = Some d → ready d → ready (advance d) →
  let i := oid_str (next_oid d) in
  i ≠ ""
  ∧ (∀ p : Lesson,
       let before := serialize <$> documents d "lesson" in
       let record := <["id" := VStr i]> (model_dump p) in
       (create_lesson p w).1 = Return (Id i)
       ∧ (list_lessons None None (create_lesson p w).2).1
         = Return (Items (before ++ [record]))
       ∧ record !! "id" = Some (VStr i) ∧ delete "id" record = model_dump p
       ∧ count_matching (model_dump p) (before ++ [record])
         = S (count_matching (model_dump p) before))
  ∧ (∀ p : Quiz,
       let before := serialize <$> documents d "quiz" in
       let record := <["id" := VStr i]> (model_dump p) in
       (create_quiz p w).1 = Return (Id i)
       ∧ (list_quizzes None (create_quiz p w).2).1
         = Return (Items (before ++ [record]))
       ∧ record !! "id" = Some (VStr i) ∧ delete "id" record = model_dump p
       ∧ count_matching (model_dump p) (before ++ [record])
         = S (count_matching (model_dump p) before))
  ∧ (∀ p : Flashcard,
       let before := serialize <$> documents d "flashcard" in
       let record := <["id" := VStr i]> (model_dump p) in
       (create_flashcard p w).1 = Return (Id i)
       ∧ record !! "id" = Some (VStr i) ∧ delete "id" record = model_dump p
       ∧ ((length (documents d "flashcard") < 50)%nat →
          (list_flashcards None None (create_flashcard p w).2).1
          = Return (Items (before ++ [record]))
          ∧ count_matching (model_dump p) (before ++ [record])
            = S (count_matching (model_dump p) before))
       ∧ ((50 ≤ length (documents d "flashcard"))%nat →
          (list_flashcards None None (create_flashcard p w).2).1
          = Return (Items (take 50 before)))).
Proof.
  intros Hdb Hr Hr' i. split; [apply oid_str_nonempty|].
  split; [|split].
  - intros p before record.
    destruct (Lesson_dump_no_id p) as [Hno Hno'].
    destruct (create_then_list_items "lesson" p w d Hdb Hr Hr' Hno Hno')
      as (Hc & Hq & Hser & Hcount).
    assert (create_lesson p w = ((λ r, match r with Return x => Return (Id x) | Raise e => Raise e end)
              (create_document "lesson" p w).1, (create_document "lesson" p w).2)) as Hcl.
    { unfold create_lesson, bind, ret.
      by destruct (create_document "lesson" p w) as [[x|e] w1]. }
    rewrite Hcl, Hc. cbn [fst snd]. split; [done|]. split.
    { unfold list_lessons, bind, ret. cbn [truthy].
      destruct (get_documents "lesson" ∅ None (create_document "lesson" p w).2)
        as [r w2] eqn:Hg. cbn [fst] in Hq. subst r. cbn [fst]. by rewrite Hser. }
    split; [apply lookup_insert_eq|]. split; [unfold record; by rewrite delete_insert_id|exact Hcount].
  - intros p before record.
    destruct (Quiz_dump_no_id p) as [Hno Hno'].
    destruct (create_then_list_items "quiz" p w d Hdb Hr Hr' Hno Hno')
      as (Hc & Hq & Hser & Hcount).
    assert (create_quiz p w = ((λ r, match r with Return x => Return (Id x) | Raise e => Raise e end)
              (create_document "quiz" p w).1, (create_document "quiz" p w).2)) as Hcl.
    { unfold create_quiz, bind, ret.
      by destruct (create_document "quiz" p w) as [[x|e] w1]. }
    rewrite Hcl, Hc. cbn [fst snd]. split; [done|]. split.
    { unfold list_quizzes, bind, ret. cbn [truthy].
      destruct (get_documents "quiz" ∅ None (create_document "quiz" p w).2)
        as [r w2] eqn:Hg. cbn [fst] in Hq. subst r. cbn [fst]. by rewrite Hser. }
    split; [apply lookup_insert_eq|]. split; [unfold record; by rewrite delete_insert_id|exact Hcount].
  - intros p before record.
    destruct (Flashcard_dump_no_id p) as [Hno Hno'].
    destruct (create_then_query "flashcard" p (Some 50) w d Hdb Hr Hr') as [Hc Hq].
    assert (create_flashcard p w = ((λ r, match r with Return x => Return (Id x) | Raise e => Raise e end)
              (create_document "flashcard" p w).1, (create_document "flashcard" p w).2)) as Hcl.
    { unfold create_flashcard, bind, ret.
      by destruct (create_document "flashcard" p w) as [[x|e] w1]. }
    rewrite Hcl, Hc. cbn [fst snd]. split; [done|].
    split; [apply lookup_insert_eq|]. split; [unfold record; by rewrite delete_insert_id|].
    assert ((list_flashcards None None (create_document "flashcard" p w).2).1
            = Return (Items (serialize <$>
                take 50 (documents d "flashcard"
                         ++ [<["_id" := VOid (next_oid d)]> (model_dump p)])))) as Hlist.
    { unfold list_flashcards, bind, ret. cbn [truthy default].
      destruct (get_documents "flashcard" ∅ (Some 50) (create_document "flashcard" p w).2)
        as [r w2] eqn:Hg. cbn [fst] in Hq. subst r. done. }
    rewrite Hlist. split.
    + intros Hlt. rewrite take_ge by (rewrite length_app; simpl; lia).
      rewrite fmap_app. simpl. rewrite serialize_stored by done. split; [done|].
      unfold record. rewrite count_matching_app, count_matching_record by done. lia.
    + intros Hge. rewrite take_app_le by done. by rewrite fmap_take.
Qed.

Lemma create_then_list_one_more_witness :
  (@list_lessons sample_runtime None None (create_lesson greetings_lesson sample_world).2).1
  = Return (Items ((@serialize sample_runtime <$> [sample_lesson])
                   ++ [<["id" := VStr "00000000000000000000000d"]>
                         (model_dump greetings_lesson)])).
Proof.
  assert (db sample_world = Some sample_db) as Hdb by reflexivity.
  assert (ready sample_db) as Hr by (vm_compute; exact I).
  assert (ready (advance sample_db)) as Hr' by (vm_compute; exact I).
  destruct (@create_then_list_one_more sample_runtime sample_world sample_db Hdb Hr Hr')
    as (_ & Hlesson & _).
  destruct (Hlesson greetings_lesson) as (_ & Hlist & _).
  exact Hlist.
Defined.

(** C1, as stated, fails.  Creating a lesson that is already stored lists
    two records with the submitted fields, not one; creating a flashcard
    when 50 are stored lists none, the default limit cutting the new card
    off. *)
Lemma create_then_list_not_exactly_one :
  ¬ exactly_one_listed (create_lesson greetings_lesson)
      (@list_lessons sample_runtime None None)
      (model_dump greetings_lesson) greetings_world
  ∧ ¬ exactly_one_listed (create_flashcard adios_card)
        (@list_flashcards sample_runtime None None)
        (model_dump adios_card) full_deck_world.
Proof.
  split.
  - intros (i & items & _ & _ & Hl & Hcount).
    assert (items = items_of (@list_lessons sample_runtime None None
                      (create_lesson greetings_lesson greetings_world).2).1) as ->
      by (by rewrite Hl).
    assert (count_matching (model_dump greetings_lesson)
              (items_of (@list_lessons sample_runtime None None
                 (create_lesson greetings_lesson greetings_world).2).1) = 2%nat) as H2
      by (vm_compute; reflexivity).
    clear Hl. rewrite H2 in Hcount. discriminate.
  - intros (i & items & _ & _ & Hl & Hcount).
    assert (items = items_of (@list_flashcards sample_runtime None None
                      (create_flashcard adios_card full_deck_world).2).1) as ->
      by (by rewrite Hl).
    assert (count_matching (model_dump adios_card)
              (items_of (@list_flashcards sample_runtime None None
                 (create_flashcard adios_card full_deck_world).2).1) = 0%nat) as H0
      by (vm_compute; reflexivity).
    clear Hl. rewrite H0 in Hcount. discriminate.
Qed.

Example create_lesson_twice_sample :
  let items := items_of (@list_lessons sample_runtime None None
                 (create_lesson greetings_lesson greetings_world).2).1 in
  length items = 2%nat
  ∧ count_matching (model_dump greetings_lesson) items = 2%nat.
Proof. split; vm_compute; reflexivity. Qed.

Example create_flashcard_full_deck_sample :
  let w' := (create_flashcard adios_card full_deck_world).2 in
  let items := items_of (@list_flashcards sample_runtime None None w').1 in
  length items = 50%nat
  ∧ count_matching (model_dump adios_card) items = 0%nat
  ∧ length (stored w' "flashcard") = 51%nat.
Proof. repeat split; vm_compute; reflexivity. Qed.

(** ** What the routes store *)

Lemma store_wf_same (w w' : world) :
  (∀ c, stored w' c = stored w c) → store_wf w → store_wf w'.
Proof. intros Hsame Hwf c x Hx. apply (Hwf c). by rewrite <- Hsame. Qed.

Lemma store_wf_offline (w : world) : db w = None → store_wf w.
Proof. intros Hdb c x Hx. unfold stored in Hx. rewrite Hdb in Hx. inversion Hx. Qed.

Lemma store_read_same {A} (f : database → A * database) (w : world) (c : string) :
  (∀ d, (f d).2 = d) → stored (store_op f w).2 c = stored w c.
Proof.
  intros Hf. unfold store_op. destruct (db w) as [d|] eqn:Hdb; [|done].
  destruct (pending d) as [|[msg|] rest]; unfold stored; simpl; rewrite ?Hdb; try done.
  - specialize (Hf d). destruct (f d) as [a d']. simpl in *. by subst d'.
  - specialize (Hf (with_pending d rest)). destruct (f _) as [a d']. simpl in *.
    by subst d'.
Qed.

Lemma get_documents_same (c : string) (q : doc) (limit : option Z) (w : world) (c' : string) :
  stored (get_documents c q limit w).2 c' = stored w c'.
Proof.
  unfold get_documents, bind, log_call, modify. simpl.
  match goal with |- context [store_op ?f ?w1] =>
    pose proof (store_read_same f w1 c' (λ _, eq_refl)) as Hs;
    destruct (store_op f w1) as [[a|e] w2]
  end; exact Hs.
Qed.

Lemma read_route_same (c : string) (q : doc) (limit : option Z)
    (k : list doc → response) (w : world) (c' : string) :
  stored ((docs <- get_documents c q limit ;; ret (k docs)) w).2 c' = stored w c'.
Proof.
  unfold bind, ret. pose proof (get_documents_same c q limit w c') as Hs.
  by destruct (get_documents c q limit w) as [[a|e] w1].
Qed.

Lemma stamped_well_stored (fields : doc) (o : N) :
  fields !! "id" = None → well_stored (<["_id" := VOid o]> fields).
Proof.
  intros Hno. split.
  - exists o. apply lookup_insert_eq.
  - by rewrite lookup_insert_ne.
Qed.

Lemma create_document_wf {A} `{Dumpable A} (c : string) (x : A) (w : world) :
  store_wf w → model_dump x !! "id" = None →
  has_post (create_document c x) w (λ _ w', store_wf w').
Proof.
  intros Hwf Hno. destruct (db w) as [d|] eqn:Hdb.
  - eapply has_post_mono; [apply create_document_post; by eexists|].
    intros r w' (_ & new & [Hc Ho] & Hnew) c' y Hy.
    destruct (decide (c' = c)) as [->|Hne].
    + rewrite Hc in Hy. apply elem_of_app in Hy as [Hy|Hy]; [by apply (Hwf c)|].
      destruct Hnew as [->|[o ->]]; [inversion Hy|].
      apply list_elem_of_singleton in Hy as ->. by apply stamped_well_stored.
    + apply (Hwf c'). by rewrite <- Ho.
  - unfold has_post. apply store_wf_offline.
    unfold create_document, bind, log_call, modify, store_op. simpl. by rewrite Hdb.
Qed.

Lemma for_each_create_wf (c : string) (xs : list doc) (w : world) :
  store_wf w → Forall (λ x, x !! "id" = None) xs →
  has_post (for_each xs (λ x, create_document c x ;;; ret tt)) w (λ _ w', store_wf w').
Proof.
  revert w. induction xs as [|x xs IH]; intros w Hwf Hxs; [done|].
  apply Forall_cons in Hxs as [Hx Hxs].
  simpl. apply has_post_bind, has_post_bind.
  eapply has_post_mono; [by apply create_document_wf|].
  intros [a|e] w1 Hwf1; [|done]. unfold has_post at 1. simpl. by apply IH.
Qed.

Lemma count_documents_same (c : string) (q : doc) (w : world) (c' : string) :
  stored (count_documents c q w).2 c' = stored w c'.
Proof.
  unfold count_documents, bind, log_call, modify. simpl.
  match goal with |- context [store_op ?f ?w1] =>
    pose proof (store_read_same f w1 c' (λ _, eq_refl)) as Hs;
    destruct (store_op f w1) as [[a|e] w2]
  end; exact Hs.
Qed.

Lemma seed_collection_wf (c : string) (xs : list doc) (n : nat) (w : world) :
  Forall (λ x : doc, x !! "id" = None) xs → store_wf w →
  has_post (if decide (n = 0%nat)
            then for_each xs (λ x, create_document c x ;;; ret tt)
            else ret tt) w (λ _ w', store_wf w').
Proof.
  intros Hxs Hwf. case_decide; [by apply for_each_create_wf|done].
Qed.

Lemma count_documents_wf (c : string) (w : world) :
  store_wf w → has_post (count_documents c ∅) w (λ _ w', store_wf w').
Proof.
  intros Hwf. unfold has_post. eapply store_wf_same; [|done].
  intros c'. apply count_documents_same.
Qed.

Lemma seed_demo_wf (w : world) :
  store_wf w → has_post seed_demo w (λ _ w', store_wf w').
Proof.
  intros Hwf.
  assert (Forall (λ x : doc, x !! "id" = None) seed_lessons) as HL
    by (repeat constructor).
  assert (Forall (λ x : doc, x !! "id" = None) seed_cards) as HF
    by (repeat constructor).
  unfold seed_demo. apply has_post_try_except.
  assert (∀ (e : exn) w', store_wf w' →
            has_post (raise (A := response) e) w' (λ _ w'', store_wf w''))
    as Hraise by (intros; done).
  unfold seed_demo_body. apply has_post_bind. unfold has_post at 1, gets. simpl.
  destruct (db w) as [d|] eqn:Hdb.
  2:{ apply has_post_bind. unfold has_post at 1, raise. simpl. by apply Hraise. }
  apply has_post_bind. unfold has_post at 1, ret. simpl.
  apply has_post_bind.
  eapply has_post_mono; [by apply (count_documents_wf "lesson")|].
  intros [n|e] w1 Hwf1; [|by apply Hraise].
  apply has_post_bind.
  eapply has_post_mono; [by apply (seed_collection_wf "lesson" seed_lessons n w1)|].
  intros [[]|e] w2 Hwf2; [|by apply Hraise].
  apply has_post_bind.
  eapply has_post_mono; [by apply (count_documents_wf "flashcard")|].
  intros [m|e] w3 Hwf3; [|by apply Hraise].
  apply has_post_bind.
  eapply has_post_mono; [by apply (seed_collection_wf "flashcard" seed_cards m w3)|].
  intros [[]|e] w4 Hwf4; [|by apply Hraise].
  exact Hwf4.
Qed.

Lemma create_route_wf {A} `{Dumpable A} (c : string) (x : A) (w : world) :
  store_wf w → model_dump x !! "id" = None →
  store_wf ((_id <- create_document c x ;; ret (Id _id)) w).2.
Proof.
  intros Hwf Hno. pose proof (create_document_wf c x w Hwf Hno) as Hpost.
  unfold has_post, bind, ret in *. by destruct (create_document c x w) as [[i|e] w1].
Qed.

Lemma serve_state (m : M world response) (w : world) : (serve m w).2 = (m w).2.
Proof. unfold serve. by destruct (m w). Qed.

Lemma with_body_wf {A} `{Dumpable A} (validate : doc → list field_error + A) (c : string)
    (body : doc) (w : world) :
  (∀ x : A, model_dump x !! "id" = None) → store_wf w →
  store_wf (with_body validate (λ x, _id <- create_document c x ;; ret (Id _id)) body w).2.
Proof.
  intros Hno Hwf. unfold with_body. destruct (validate body) as [errs|x]; [done|].
  rewrite serve_state. by apply create_route_wf.
Qed.

(** Every request leaves the store holding only documents with an ObjectId
    under [_id] and no field [id]. *)
Lemma app_preserves_store_wf `{PyRuntime} (r : request) (w : world) :
  store_wf w → store_wf (app r w).2.
Proof.
  intros Hwf. destruct r; simpl; rewrite ?serve_state.
  - done.
  - destruct (test_database_outcome w) as (payload & w' & Hrun & Hsame & _).
    rewrite Hrun. by eapply store_wf_same.
  - by apply seed_demo_wf.
  - eapply store_wf_same; [|done]. intros c. apply read_route_same.
  - apply (with_body_wf validate_Lesson "lesson"); [|done].
    intros x. apply Lesson_dump_no_id.
  - eapply store_wf_same; [|done]. intros c. apply read_route_same.
  - apply (with_body_wf validate_Quiz "quiz"); [|done].
    intros x. apply Quiz_dump_no_id.
  - eapply store_wf_same; [|done]. intros c. apply read_route_same.
  - apply (with_body_wf validate_Flashcard "flashcard"); [|done].
    intros x. apply Flashcard_dump_no_id.
  - eapply store_wf_same; [|done]. intros c. apply read_route_same.
  - apply (create_route_wf "progress" (strip_none (model_dump payload))); [done|].
    unfold model_dump at 1, dict_dumpable. unfold strip_none.
    apply map_lookup_filter_None. left. by destruct payload.
Qed.

Lemma run_preserves_store_wf `{PyRuntime} (rs : list request) (w : world) :
  store_wf w → store_wf (run rs w).
Proof.
  revert w. induction rs as [|r rs IH]; intros w Hwf; [done|].
  simpl. apply IH. by apply app_preserves_store_wf.
Qed.

(** After any sequence of requests on a store that was empty, what the
    read routes serialize are documents with an ObjectId and no [id], so
    that serialization changes no field but [_id]. *)
Lemma served_documents_renamed `{PyRuntime} (rs : list request) (c : string) (x : doc) :
  x ∈ stored (run rs empty_world) c →
  ∃ o, x !! "_id" = Some (VOid o)
       ∧ serialize x = <["id" := VStr (oid_str o)]> (delete "_id" x)
       ∧ ∀ k v, k ≠ "_id" → x !! k = Some v → serialize x !! k = Some v.
Proof.
  intros Hx.
  assert (store_wf empty_world) as Hwf0.
  { intros c' y Hy. vm_compute in Hy. inversion Hy. }
  destruct (run_preserves_store_wf rs empty_world Hwf0 c x Hx) as [[o Ho] Hno].
  exists o. split; [done|]. split; [by apply (serialize_with_id x (VOid o))|].
  intros k v Hk Hv. rewrite serialize_lookup_other; [done|done|].
  intros ->. congruence.
Qed.

(** * Further properties *)

(** ** Serialization, in general *)

(** X1. Serialization never lets [_id] through, whatever the document, and
    serializing twice is serializing once. *)
Theorem serialize_idempotent `{PyRuntime} (d : doc) :
  serialize d !! "_id" = None ∧ serialize (serialize d) = serialize d.
Proof.
  assert (serialize d !! "_id" = None) as Hno.
  { unfold serialize. case_decide as He; [by subst|].
    destruct (d !! "_id") as [v|] eqn:Hid; [|done].
    rewrite lookup_insert_ne by done. apply lookup_delete_eq. }
  split; [exact Hno|].
  unfold serialize at 1. case_decide; [done|]. by rewrite Hno.
Qed.

(** A document without [_id], the empty one included, is returned as
    it is. *)
Lemma serialize_without_id `{PyRuntime} (d : doc) :
  d !! "_id" = None → serialize d = d.
Proof. intros Hno. unfold serialize. case_decide; [done|]. by rewrite Hno. Qed.

Lemma serialize_without_id_witness :
  @serialize sample_runtime {[ "status" := VStr "ok" ]} = {[ "status" := VStr "ok" ]}.
Proof. apply (@serialize_without_id sample_runtime). reflexivity. Defined.

(** X2. For a document with [_id], of whatever kind of value: the fields of
    the result are those of the document, [_id] removed and [id] added; and
    [id] holds the string form of [_id] even when the document had a field
    [id] of its own, which is lost. *)
Theorem serialize_fields `{PyRuntime} (d : doc) (v : value) :
  d !! "_id" = Some v →
  dom (serialize d) = {["id"]} ∪ (dom d ∖ {["_id"]})
  ∧ serialize d !! "id" = Some (VStr (py_str v))
  ∧ (∀ old, d !! "id" = Some old → old ≠ VStr (py_str v) →
     serialize d !! "id" ≠ d !! "id").
Proof.
  intros Hid. rewrite (serialize_with_id d v Hid).
  split; [by rewrite dom_insert_L, dom_delete_L|].
  rewrite lookup_insert_eq. split; [done|].
  intros old Hold Hne. rewrite Hold. congruence.
Qed.

Lemma serialize_fields_witness :
  @serialize sample_runtime {[ "_id" := VOid 1; "id" := VStr "mine" ]}
  = {[ "id" := VStr "000000000000000000000001" ]}.
Proof.
  assert (({[ "_id" := VOid 1; "id" := VStr "mine" ]} : doc) !! "_id" = Some (VOid 1))
    as Hid by reflexivity.
  destruct (@serialize_fields sample_runtime _ _ Hid) as (Hdom & Hnew & _).
  apply map_eq. intros k. destruct (decide (k = "id")) as [->|Hk]; [by rewrite Hnew|].
  rewrite lookup_singleton_ne by done. apply not_elem_of_dom.
  rewrite Hdom. set_solver.
Defined.

(** ** Listings, exactly *)

Lemma doc_matches_insert (q x : doc) (k : string) (v : value) :
  q !! k = None →
  doc_matches (<[k := v]> q) x = true ↔ x !! k = Some v ∧ doc_matches q x = true.
Proof.
  intros Hq. unfold doc_matches. rewrite !bool_decide_eq_true.
  by rewrite map_Forall_insert.
Qed.

Lemma filter_for_param (k : string) (param : option string) (q x : doc) :
  q !! k = None →
  doc_matches (if truthy param then <[k := param_value param]> q else q) x = true
  ↔ selects k param x ∧ doc_matches q x = true.
Proof.
  intros Hq. unfold selects. destruct (truthy param).
  - rewrite doc_matches_insert by done. split; intros [Hk Hm]; split; auto.
  - split; [intros Hm; split; [discriminate|done]|by intros [_ Hm]].
Qed.

Lemma lessons_filter_selects (language level : option string) (x : doc) :
  doc_matches
    (let q : doc := ∅ in
     let q := if truthy language then <["language" := param_value language]> q else q in
     if truthy level then <["level" := param_value level]> q else q) x = true
  ↔ selects "language" language x ∧ selects "level" level x.
Proof.
  cbn zeta. rewrite filter_for_param.
  - rewrite filter_for_param by done. rewrite doc_matches_empty. intuition auto.
  - destruct (truthy language); [by rewrite lookup_insert_ne|done].
Qed.

(** X3. On a connected store whose next operation meets no fault, [GET
    /lessons] returns, serialized and in insertion order, exactly the
    stored lessons that have the given language (when one is given,
    non-empty) and the given level (likewise): none is left out, none is
    added. *)
Theorem list_lessons_exact `{PyRuntime} (w : world) (d : database)
    (language level : option string) :
  db w = Some d → ready d →
  (list_lessons language level w).1
  = Return (Items (serialize <$>
      filter (λ x, selects "language" language x ∧ selects "level" level x)
             (documents d "lesson"))).
Proof.
  intros Hdb Hr. unfold list_lessons, bind, ret.
  erewrite get_documents_ready by done. cbn [fst]. do 3 f_equal.
  rewrite find_advance. unfold find. apply list_filter_iff.
  intros x. apply lessons_filter_selects.
Qed.

Lemma list_lessons_exact_witness :
  (@list_lessons sample_runtime (Some "French") (Some "A1") sample_world).1
  = Return (Items []).
Proof.
  assert (db sample_world = Some sample_db) as Hdb by reflexivity.
  assert (ready sample_db) as Hr by (vm_compute; exact I).
  rewrite (@list_lessons_exact sample_runtime sample_world sample_db
             (Some "French") (Some "A1") Hdb Hr).
  vm_compute. reflexivity.
Defined.

(** X4. On a connected store whose next operation meets no fault, [GET
    /quizzes] returns, serialized and in insertion order, exactly the
    stored quizzes of the given lesson, all of them when no lesson (or the
    empty string) is given. *)
Theorem list_quizzes_exact `{PyRuntime} (w : world) (d : database)
    (lesson_id : option string) :
  db w = Some d → ready d →
  (list_quizzes lesson_id w).1
  = Return (Items (serialize <$>
      filter (selects "lesson_id" lesson_id) (documents d "quiz"))).
Proof.
  intros Hdb Hr. unfold list_quizzes, bind, ret.
  erewrite get_documents_ready by done. cbn [fst]. do 3 f_equal.
  rewrite find_advance. unfold find. apply list_filter_iff.
  intros x. cbn zeta. rewrite filter_for_param by done.
  rewrite doc_matches_empty. intuition auto.
Qed.

Lemma list_quizzes_exact_witness :
  (@list_quizzes sample_runtime (Some "l1") sample_world).1 = Return (Items []).
Proof.
  assert (db sample_world = Some sample_db) as Hdb by reflexivity.
  assert (ready sample_db) as Hr by (vm_compute; exact I).
  rewrite (@list_quizzes_exact sample_runtime sample_world sample_db (Some "l1") Hdb Hr).
  vm_compute. reflexivity.
Defined.

(** X5. On a connected store whose next operation meets no fault, and for a
    positive limit (50 when the parameter is absent), [GET /flashcards]
    returns the first [limit] of the stored flashcards that have the given
    language, serialized and in insertion order; so it returns at most
    [limit] items, and all the matching ones when they are no more than
    [limit]. *)
Theorem list_flashcards_exact `{PyRuntime} (w : world) (d : database)
    (language : option string) (limit : option Z) :
  db w = Some d → ready d → 0 < default 50 limit →
  let hits := filter (selects "language" language) (documents d "flashcard") in
  let n := Z.to_nat (default 50 limit) in
  (list_flashcards language limit w).1 = Return (Items (serialize <$> take n hits))
  ∧ (length (items_of (list_flashcards language limit w).1) ≤ n)%nat
  ∧ ((length hits ≤ n)%nat →
     (list_flashcards language limit w).1 = Return (Items (serialize <$> hits))).
Proof.
  intros Hdb Hr Hpos hits n.
  assert ((list_flashcards language limit w).1
          = Return (Items (serialize <$> take n hits))) as Hl.
  { unfold list_flashcards, bind, ret.
    erewrite get_documents_ready by done. cbn [fst]. do 3 f_equal.
    rewrite find_advance. unfold find. fold n. f_equal.
    apply list_filter_iff. intros x. cbn zeta. rewrite filter_for_param by done.
    rewrite doc_matches_empty. intuition auto. }
  split; [exact Hl|]. rewrite Hl. split.
  - simpl. rewrite length_fmap. apply firstn_le_length.
  - intros Hle. by rewrite take_ge.
Qed.

Lemma list_flashcards_exact_witness :
  (length (items_of (@list_flashcards sample_runtime None (Some 1%Z) sample_world).1) ≤ 1)%nat.
Proof.
  assert (db sample_world = Some sample_db) as Hdb by reflexivity.
  assert (ready sample_db) as Hr by (vm_compute; exact I).
  assert (0 < default 50 (Some 1)) as Hpos by (simpl; lia).
  exact (proj1 (proj2 (@list_flashcards_exact sample_runtime sample_world sample_db
                         None (Some 1) Hdb Hr Hpos))).
Defined.

(** ** Progress snapshots *)

Lemma filter_first_match {A} (P : A → Prop) `{∀ x, Decision (P x)}
    (l1 l2 : list A) (x : A) :
  (∀ y, y ∈ l1 → ¬ P y) → P x →
  take 1 (filter P (l1 ++ x :: l2)) = [x].
Proof.
  intros Hno Hx. rewrite filter_app.
  assert (filter P l1 = []) as ->.
  { induction l1 as [|y l1 IH]; [done|]. rewrite filter_cons, decide_False.
    - apply IH. intros z Hz. apply Hno. by right.
    - apply Hno. by left. }
  by rewrite filter_cons, decide_True.
Qed.

Lemma find_first_match (c k : string) (v : value) (d : database)
    (older newer : list doc) (x : doc) :
  documents d c = older ++ x :: newer →
  (∀ y, y ∈ older → y !! k ≠ Some v) → x !! k = Some v →
  find c {[ k := v ]} (Some 1) d = [x].
Proof.
  intros Hdocs Hno Hx. unfold find. rewrite Hdocs.
  change (Z.to_nat 1) with 1%nat.
  apply filter_first_match.
  - intros y Hy Hm. apply doc_matches_singleton in Hm. by apply (Hno y).
  - by apply doc_matches_singleton.
Qed.

(** X6. [GET /progress/{user_id}] returns the oldest snapshot of the user:
    on a connected store whose next operation meets no fault, the first
    Progress document in insertion order whose [user_id] is the user's is
    returned, serialized, whatever snapshots were stored after it. *)
Theorem get_progress_first_snapshot `{PyRuntime} (w : world) (d : database)
    (user_id : string) (older newer : list doc) (x : doc) :
  db w = Some d → ready d →
  documents d "progress" = older ++ x :: newer →
  (∀ y, y ∈ older → y !! "user_id" ≠ Some (VStr user_id)) →
  x !! "user_id" = Some (VStr user_id) →
  (get_progress user_id w).1 = Return (Document (serialize x)).
Proof.
  intros Hdb Hr Hdocs Hno Hx. unfold get_progress, bind, ret.
  erewrite get_documents_ready by done. cbn [fst]. rewrite find_advance.
  by rewrite (find_first_match _ _ _ d older newer x).
Qed.

Lemma get_progress_first_snapshot_witness :
  (@get_progress sample_runtime "u1" (World (Some snapshots_db) ∅ [])).1
  = Return (Document (@serialize sample_runtime (snapshot 0 1))).
Proof.
  apply (@get_progress_first_snapshot sample_runtime (World (Some snapshots_db) ∅ [])
           snapshots_db "u1" [] [snapshot 1 2] (snapshot 0 1)).
  - reflexivity.
  - exact I.
  - reflexivity.
  - intros y Hy. inversion Hy.
  - reflexivity.
Defined.

(** ** What requests do to the store *)

Lemma test_database_same (w : world) (c : string) :
  stored (test_database w).2 c = stored w c.
Proof.
  destruct (test_database_outcome w) as (payload & w' & Hrun & Hsame & _).
  rewrite Hrun. apply Hsame.
Qed.

(** X7. A request that only reads ([GET /], [/test], [/lessons],
    [/quizzes], [/flashcards], [/progress/{user_id}]) leaves every
    collection as it was, in every state of the store, faults included. *)
Theorem read_requests_keep_store `{PyRuntime} (r : request) (w : world) (c : string) :
  is_read r = true → stored (app r w).2 c = stored w c.
Proof.
  intros Hr. destruct r; try discriminate; cbn [app]; rewrite serve_state.
  - done.
  - apply test_database_same.
  - apply read_route_same.
  - apply read_route_same.
  - apply read_route_same.
  - apply read_route_same.
Qed.

Lemma read_requests_keep_store_witness :
  stored (@app sample_runtime (GET_flashcards (Some "French") None) sample_world).2
    "flashcard"
  = stored sample_world "flashcard".
Proof. apply (@read_requests_keep_store sample_runtime). reflexivity. Defined.

Lemma create_document_prefix {A} `{Dumpable A} (c : string) (x : A) (w : world) (c' : string) :
  stored w c' `prefix_of` stored (create_document c x w).2 c'.
Proof.
  destruct (db w) as [d|] eqn:Hdb.
  - pose proof (create_document_post c x w) as Hpost. unfold has_post in Hpost.
    destruct Hpost as (_ & new & [Hc Ho] & _); [by eexists|].
    destruct (decide (c' = c)) as [->|Hne].
    + rewrite Hc. by apply prefix_app_r.
    + by rewrite Ho.
  - unfold create_document, bind, log_call, modify, store_op, stored. simpl.
    by rewrite Hdb.
Qed.

Lemma create_route_prefix {A} `{Dumpable A} (c : string) (x : A) (w : world) (c' : string) :
  stored w c' `prefix_of` stored ((_id <- create_document c x ;; ret (Id _id)) w).2 c'.
Proof.
  pose proof (create_document_prefix c x w c') as Hp. unfold bind, ret.
  by destruct (create_document c x w) as [[i|e] w1].
Qed.

Lemma with_body_prefix {A} `{Dumpable A} (validate : doc → list field_error + A)
    (c : string) (body : doc) (w : world) (c' : string) :
  stored w c' `prefix_of`
    stored (with_body validate (λ x, _id <- create_document c x ;; ret (Id _id)) body w).2 c'.
Proof.
  unfold with_body. destruct (validate body) as [errs|x]; [done|].
  rewrite serve_state. apply create_route_prefix.
Qed.

Lemma seed_demo_prefix (w : world) (c : string) :
  stored w c `prefix_of` stored (seed_demo w).2 c.
Proof.
  destruct (seed_demo_post w) as ((newL & HL & _) & (newF & HF & _) & Ho).
  destruct (decide (c = "lesson")) as [->|H1]; [rewrite HL; by apply prefix_app_r|].
  destruct (decide (c = "flashcard")) as [->|H2]; [rewrite HF; by apply prefix_app_r|].
  by rewrite Ho.
Qed.

Lemma app_prefix `{PyRuntime} (r : request) (w : world) (c : string) :
  stored w c `prefix_of` stored (app r w).2 c.
Proof.
  destruct r; cbn [app post_lessons post_quizzes post_flashcards];
    rewrite ?serve_state;
    try (match goal with
         | |- _ `prefix_of` ?l =>
             replace l with (stored w c);
             [reflexivity
             |symmetry; first [apply read_route_same | apply test_database_same | done]]
         end).
  - apply seed_demo_prefix.
  - apply (with_body_prefix validate_Lesson "lesson").
  - apply (with_body_prefix validate_Quiz "quiz").
  - apply (with_body_prefix validate_Flashcard "flashcard").
  - apply (create_route_prefix "progress" (strip_none (model_dump payload))).
Qed.

(** X8. The store is append-only: whatever the sequence of requests and the
    state it starts in, every collection ends with the documents it had, in
    the same order and unchanged, followed by those inserted since.  No
    request deletes, reorders or rewrites a stored document. *)
Theorem requests_append_only `{PyRuntime} (rs : list request) (w : world) (c : string) :
  stored w c `prefix_of` stored (run rs w) c.
Proof.
  revert w. induction rs as [|r rs IH]; intros w; [done|].
  simpl. etrans; [apply app_prefix|apply IH].
Qed.

(** ** Store failures *)

Lemma store_op_failing {A} (f : database → A * database) (w : world) :
  failing w →
  ∃ e w', store_op f w = (Raise e, w')
          ∧ (∀ st detail, e ≠ HTTPException st detail)
          ∧ ∀ c, stored w' c = stored w c.
Proof.
  intros [Hdb|(d & msg & rest & Hdb & Hp)]; unfold store_op; rewrite Hdb.
  - by exists StoreUnavailable, w.
  - rewrite Hp. do 2 eexists. split; [reflexivity|]. split; [done|].
    intros c. unfold stored. simpl. by rewrite Hdb.
Qed.

Lemma failing_log (w : world) (x : store_call) :
  failing w → failing (World (db w) (environ w) (calls w ++ [x])).
Proof. done. Qed.

Lemma serve_failing {A} (m : M world A) (k : A → response) (w : world) :
  (∃ e w', m w = (Raise e, w')
           ∧ (∀ st detail, e ≠ HTTPException st detail)
           ∧ ∀ c, stored w' c = stored w c) →
  (serve (x <- m ;; ret (k x)) w).1 = Http 500 (Detail "Internal Server Error")
  ∧ ∀ c, stored (serve (x <- m ;; ret (k x)) w).2 c = stored w c.
Proof.
  intros (e & w' & Hm & He & Hsame). unfold serve, bind. rewrite Hm. simpl.
  split; [|done]. destruct e; try done. by destruct (He status_code detail).
Qed.

Lemma get_documents_failing (c : string) (q : doc) (limit : option Z) (w : world) :
  failing w →
  ∃ e w', get_documents c q limit w = (Raise e, w')
          ∧ (∀ st detail, e ≠ HTTPException st detail)
          ∧ ∀ c', stored w' c' = stored w c'.
Proof.
  intros Hf. unfold get_documents, bind, log_call, modify. simpl.
  match goal with |- context [store_op ?f ?w1] =>
    destruct (store_op_failing f w1 (failing_log w _ Hf)) as (e & w' & -> & He & Hs)
  end.
  by exists e, w'.
Qed.

Lemma create_document_failing {A} `{Dumpable A} (c : string) (x : A) (w : world) :
  failing w →
  ∃ e w', create_document c x w = (Raise e, w')
          ∧ (∀ st detail, e ≠ HTTPException st detail)
          ∧ ∀ c', stored w' c' = stored w c'.
Proof.
  intros Hf. unfold create_document, bind, log_call, modify. simpl.
  match goal with |- context [store_op ?f ?w1] =>
    destruct (store_op_failing f w1 (failing_log w _ Hf)) as (e & w' & -> & He & Hs)
  end.
  by exists e, w'.
Qed.

(** X9. The listing, progress and create routes handle no store error:
    when the store has no connection or its operation faults, the request
    is answered 500 Internal Server Error and no collection changes.  (A
    create request must first pass validation.) *)
Theorem store_failure_is_500 `{PyRuntime} (r : request) (w : world) :
  failing w → reaches_store r →
  (app r w).1 = Http 500 (Detail "Internal Server Error")
  ∧ ∀ c, stored (app r w).2 c = stored w c.
Proof.
  intros Hf Hr.
  destruct r; try done; cbn [app]; cbn [reaches_store] in Hr;
    try (match type of Hr with ex _ => destruct Hr as [p Hp] end;
         unfold post_lessons, post_quizzes, post_flashcards, with_body; rewrite Hp;
         apply (serve_failing _ Id); by apply create_document_failing).
  - apply (serve_failing _ (λ docs, Items (serialize <$> docs))).
    by apply get_documents_failing.
  - apply (serve_failing _ (λ docs, Items (serialize <$> docs))).
    by apply get_documents_failing.
  - apply (serve_failing _ (λ docs, Items (serialize <$> docs))).
    by apply get_documents_failing.
  - apply (serve_failing _ (λ docs, Document (match serialize <$> docs with
                                              | it :: _ => it
                                              | [] => default_progress user_id
                                              end))).
    by apply get_documents_failing.
  - apply (serve_failing _ Id). by apply create_document_failing.
Qed.

Lemma store_failure_is_500_witness :
  (@app sample_runtime (GET_lessons None None) offline_world).1
  = Http 500 (Detail "Internal Server Error").
Proof.
  assert (failing offline_world) as Hf by (left; reflexivity).
  exact (proj1 (@store_failure_is_500 sample_runtime (GET_lessons None None)
                  offline_world Hf I)).
Defined.

(** ** What seeding answers *)

Lemma has_post_bind_any {S A B} (m : M S A) (k : A → M S B) (s : S)
    (Q : outcome B → S → Prop) :
  (∀ a s', has_post (k a) s' Q) → (∀ e s', Q (Raise e) s') →
  has_post (bind m k) s Q.
Proof.
  intros Hk He. apply has_post_bind. unfold has_post at 1.
  destruct (m s) as [[a|e] s']; simpl; auto.
Qed.

Lemma seed_demo_body_returns (w : world) :
  has_post seed_demo_body w (λ r _,
    r = Return (Document {[ "status" := VStr "ok" ]}) ∨ ∃ e, r = Raise e).
Proof.
  unfold seed_demo_body.
  repeat (apply has_post_bind_any; [intros ? ?|intros e ?; right; by exists e]).
  by left.
Qed.

(** X10. [POST /seed] answers either [{status: "ok"}] or an HTTP error 500,
    never anything else: every exception, the store's included, is turned
    into status 500 with the exception's text as detail.  With no
    connection it makes no store call and changes nothing; when the first
    store operation faults, the detail is the fault's message. *)
Theorem seed_demo_answers (w : world) :
  ((serve seed_demo w).1 = Http 200 (Json (Document {[ "status" := VStr "ok" ]}))
   ∨ ∃ detail, (serve seed_demo w).1 = Http 500 (Detail detail))
  ∧ (db w = None →
     seed_demo w = (Raise (HTTPException 500 "500: Database not available"), w))
  ∧ (∀ d msg rest, db w = Some d → pending d = Some msg :: rest →
     (seed_demo w).1 = Raise (HTTPException 500 msg)
     ∧ ∀ c, stored (seed_demo w).2 c = stored w c).
Proof.
  split; [|split].
  - pose proof (seed_demo_body_returns w) as Hpost.
    unfold serve, seed_demo, try_except, has_post in *.
    destruct (seed_demo_body w) as [[a|e] w']; simpl in *.
    + destruct Hpost as [[= ->]|[e [=]]]. by left.
    + right. by eexists.
  - intros Hdb. unfold seed_demo, try_except, seed_demo_body, bind, gets, raise.
    by rewrite Hdb.
  - intros d msg rest Hdb Hp.
    destruct w as [dbo env cs]. simpl in Hdb. subst dbo.
    destruct d as [name colls o p]. simpl in Hp. subst p.
    split; reflexivity.
Qed.

Lemma seed_demo_answers_witness :
  seed_demo offline_world
  = (Raise (HTTPException 500 "500: Database not available"), offline_world).
Proof. apply (proj1 (proj2 (seed_demo_answers offline_world))). reflexivity. Defined.

(** ** Validation, further *)

Lemma list_field_fmap {A} (item : value → option A) (g : A → value) (body : doc)
    (k : string) (l : list A) :
  body !! k = Some (VList (g <$> l)) → (∀ x, item (g x) = Some x) →
  list_field item body k = inr l.
Proof.
  intros Hk Hg. unfold list_field. rewrite Hk. by rewrite (mapM_fmap_Some item g).
Qed.

(** X11. Validation takes the dump of a payload back to the payload, for the
    three schemas: what a create route stored, sent again as a body,
    validates to the same Lesson, Quiz or Flashcard. *)
Theorem validate_model_dump :
  (∀ p : Lesson, validate_Lesson (model_dump p) = inr p)
  ∧ (∀ p : Quiz, validate_Quiz (model_dump p) = inr p)
  ∧ (∀ p : Flashcard, validate_Flashcard (model_dump p) = inr p).
Proof.
  split; [|split].
  - intros [a b c d e]. unfold validate_Lesson.
    by rewrite (list_field_fmap as_str VStr _ "objectives" e).
  - intros [a qs]. unfold validate_Quiz.
    by rewrite (list_field_fmap as_dict VDict _ "questions" qs).
  - by intros [a b c [e|]].
Qed.

Lemma as_str_inv (v : value) (s : string) : as_str v = Some s → VStr s = v.
Proof. destruct v; try discriminate. by intros [= ->]. Qed.

Lemma required_str_inr (body : doc) (k s : string) :
  required_str body k = inr s → body !! k = Some (VStr s).
Proof.
  unfold required_str. destruct (body !! k) as [[]|]; try discriminate.
  by intros [= ->].
Qed.

Lemma list_field_str_inr (body : doc) (k : string) (l : list string) :
  list_field as_str body k = inr l →
  (body !! k = None ∧ l = []) ∨ body !! k = Some (VList (VStr <$> l)).
Proof.
  unfold list_field. destruct (body !! k) as [[]|]; try discriminate.
  - destruct (mapM as_str xs) as [ys|] eqn:Hm; [|discriminate].
    intros [= ->]. right. do 2 f_equal. symmetry.
    eapply mapM_fmap_Some_inv; [exact Hm|]. apply as_str_inv.
  - intros [= <-]. by left.
Qed.

(** X12. A Lesson body that passes validation reaches the handler with its
    own values: the four required fields are strings in the body and are
    dumped as they were given, [objectives] is dumped as given or as the
    empty list when the body has none, and the dump has these five fields
    only, any other field of the body being dropped. *)
Theorem validate_Lesson_keeps_values (body : doc) (p : Lesson) :
  validate_Lesson body = inr p →
  (∀ k, k ∈ ["language"; "title"; "level"; "content"] →
        ∃ s, body !! k = Some (VStr s) ∧ model_dump p !! k = Some (VStr s))
  ∧ (model_dump p !! "objectives" = Some (default (VList []) (body !! "objectives")))
  ∧ dom (model_dump p)
    = ({["language"; "title"; "level"; "content"; "objectives"]} : gset string).
Proof.
  unfold validate_Lesson.
  destruct (required_str body "language") as [?|a] eqn:Ha;
    destruct (required_str body "title") as [?|b] eqn:Hb;
    destruct (required_str body "level") as [?|c] eqn:Hc;
    destruct (required_str body "content") as [?|d] eqn:Hd;
    destruct (list_field as_str body "objectives") as [?|e] eqn:He;
    try discriminate.
  intros [= <-].
  apply required_str_inr in Ha, Hb, Hc, Hd. apply list_field_str_inr in He.
  split; [|split].
  - intros k Hk.
    repeat (apply elem_of_cons in Hk as [->|Hk]); [ .. | inversion Hk ];
      eexists; (split; [eassumption|reflexivity]).
  - destruct He as [[-> ->]| ->]; reflexivity.
  - unfold model_dump, Lesson_dumpable. simpl.
    rewrite !dom_insert_L, dom_singleton_L. set_solver.
Qed.

Lemma validate_Lesson_keeps_values_witness :
  ∃ p, validate_Lesson authored_lesson_body = inr p
       ∧ model_dump p !! "objectives" = Some (VList [])
       ∧ model_dump p !! "author" = None.
Proof.
  exists (Build_Lesson "Spanish" "Saludos" "A1" "Hola" []).
  assert (validate_Lesson authored_lesson_body
          = inr (Build_Lesson "Spanish" "Saludos" "A1" "Hola" []))
    as Hv by reflexivity.
  destruct (validate_Lesson_keeps_values authored_lesson_body _ Hv) as (_ & Hobj & Hdom).
  split; [exact Hv|]. split; [exact Hobj|].
  apply not_elem_of_dom. rewrite Hdom. set_solver.
Defined.

Lemma required_str_wrong (body : doc) (k : string) (v : value) :
  body !! k = Some v → as_str v = None → required_str body k = inl (WrongType k).
Proof. intros Hk Hv. unfold required_str. rewrite Hk. by destruct v. Qed.

(** X13. A create request whose body gives a required field a value that is
    not a string (null, a number, a list, ...) is rejected like one that
    lacks it: status 422, the field reported as of the wrong type, the
    state unchanged. *)
Theorem create_wrong_type_rejected (body : doc) (w : world) (k : string) (v : value) :
  body !! k = Some v → as_str v = None →
  let rejected (r : http_response * world) :=
    client_error r.1 ∧ r.2 = w
    ∧ ∃ errs, r.1 = Http 422 (ValidationErrors errs) ∧ WrongType k ∈ errs in
  (k ∈ ["language"; "title"; "level"; "content"] → rejected (post_lessons body w))
  ∧ (k = "lesson_id" → rejected (post_quizzes body w))
  ∧ (k ∈ ["language"; "term"; "definition"] → rejected (post_flashcards body w)).
Proof.
  intros Hk Hv rejected.
  pose proof (required_str_wrong body k v Hk Hv) as Hw.
  assert (∀ r errs, r = (Http 422 (ValidationErrors errs), w) → WrongType k ∈ errs →
          rejected r) as Hrej.
  { intros r errs -> He. split; [unfold client_error; simpl; lia|].
    split; [done|]. by exists errs. }
  split; [|split].
  - intros Hin. unfold post_lessons, with_body, validate_Lesson.
    repeat (apply elem_of_cons in Hin as [->|Hin]); [ .. | inversion Hin ];
      rewrite Hw;
      repeat match goal with
        | |- context [required_str body ?f] => destruct (required_str body f)
        | |- context [list_field ?i body ?f] => destruct (list_field i body f)
        end;
      (eapply Hrej; [reflexivity|]; simpl; set_solver).
  - intros ->. unfold post_quizzes, with_body, validate_Quiz. rewrite Hw.
    destruct (list_field as_dict body "questions");
      (eapply Hrej; [reflexivity|]; simpl; set_solver).
  - intros Hin. unfold post_flashcards, with_body, validate_Flashcard.
    repeat (apply elem_of_cons in Hin as [->|Hin]); [ .. | inversion Hin ];
      rewrite Hw;
      repeat match goal with
        | |- context [required_str body ?f] => destruct (required_str body f)
        | |- context [optional_str body ?f] => destruct (optional_str body f)
        end;
      (eapply Hrej; [reflexivity|]; simpl; set_solver).
Qed.

Lemma create_wrong_type_rejected_witness :
  (post_lessons (<["title" := VNone]> untitled_lesson_body) sample_world).2 = sample_world
  ∧ client_error (post_lessons (<["title" := VNone]> untitled_lesson_body) sample_world).1.
Proof.
  assert ((<["title" := VNone]> untitled_lesson_body : doc) !! "title" = Some VNone)
    as Hk by reflexivity.
  destruct (proj1 (create_wrong_type_rejected _ sample_world "title" VNone Hk eq_refl))
    as (Hc & Hw & _).
  - set_solver.
  - split; [exact Hw|exact Hc].
Defined.

(** ** Accepted create requests *)

Lemma with_body_accepted {A} `{Dumpable A} (validate : doc → list field_error + A)
    (c : string) (body : doc) (p : A) (w : world) (d : database) :
  db w = Some d → ready d → validate body = inr p →
  let r := with_body validate (λ x, _id <- create_document c x ;; ret (Id _id)) body w in
  r.1 = Http 200 (Json (Id (oid_str (next_oid d))))
  ∧ stored r.2 c = documents d c ++ [<["_id" := VOid (next_oid d)]> (model_dump p)]
  ∧ ∀ c', c' ≠ c → stored r.2 c' = documents d c'.
Proof.
  intros Hdb Hr Hv. unfold with_body. rewrite Hv. unfold serve, bind, ret.
  rewrite (create_document_ready c p w d Hdb Hr). cbn [fst snd respond].
  split; [done|]. unfold stored, documents. simpl. split.
  - by rewrite lookup_insert_eq.
  - intros c' Hne. by rewrite lookup_insert_ne.
Qed.

(** X14. On a connected store whose next operation meets no fault, a create
    request with a valid body is answered 200 with the new identifier, and
    its collection gains, at the end, one document: the dump of the
    validated payload under that identifier.  No other collection
    changes. *)
Theorem create_accepted (w : world) (d : database) (body : doc) :
  db w = Some d → ready d →
  let o := next_oid d in
  let created (c : string) (fields : doc) (r : http_response * world) :=
    r.1 = Http 200 (Json (Id (oid_str o)))
    ∧ stored r.2 c = documents d c ++ [<["_id" := VOid o]> fields]
    ∧ ∀ c', c' ≠ c → stored r.2 c' = documents d c' in
  (∀ p, validate_Lesson body = inr p →
        created "lesson" (model_dump p) (post_lessons body w))
  ∧ (∀ p, validate_Quiz body = inr p →
          created "quiz" (model_dump p) (post_quizzes body w))
  ∧ (∀ p, validate_Flashcard body = inr p →
          created "flashcard" (model_dump p) (post_flashcards body w)).
Proof.
  intros Hdb Hr o created. split; [|split]; intros p Hv.
  - by apply (with_body_accepted validate_Lesson "lesson" body p w d).
  - by apply (with_body_accepted validate_Quiz "quiz" body p w d).
  - by apply (with_body_accepted validate_Flashcard "flashcard" body p w d).
Qed.

Lemma create_accepted_witness :
  (post_lessons (model_dump greetings_lesson) empty_world).1
  = Http 200 (Json (Id "000000000000000000000000")).
Proof.
  pose (d := Database (Some "langlearn") ∅ 0 []).
  assert (db empty_world = Some d) as Hdb by reflexivity.
  assert (ready d) as Hr by (vm_compute; exact I).
  destruct (create_accepted empty_world d (model_dump greetings_lesson) Hdb Hr)
    as (Hl & _).
  exact (proj1 (Hl greetings_lesson eq_refl)).
Defined.

(** ** The shape of what is stored *)

Section store_invariant.
Context `{PyRuntime}.
Variable P : string → doc → Prop.
Hypothesis P_lesson :
  ∀ (p : Lesson) o, P "lesson" (<["_id" := VOid o]> (model_dump p)).
Hypothesis P_quiz :
  ∀ (p : Quiz) o, P "quiz" (<["_id" := VOid o]> (model_dump p)).
Hypothesis P_flashcard :
  ∀ (p : Flashcard) o, P "flashcard" (<["_id" := VOid o]> (model_dump p)).
Hypothesis P_progress :
  ∀ (p : ProgressUpdate) o,
    P "progress" (<["_id" := VOid o]> (strip_none (model_dump p))).
Hypothesis P_seed_lessons :
  Forall (λ l : doc, ∀ o, P "lesson" (<["_id" := VOid o]> l)) seed_lessons.
Hypothesis P_seed_cards :
  Forall (λ l : doc, ∀ o, P "flashcard" (<["_id" := VOid o]> l)) seed_cards.

Lemma store_all_same (w w' : world) :
  (∀ c, stored w' c = stored w c) → store_all P w → store_all P w'.
Proof. intros Hsame Hall c x Hx. apply (Hall c). by rewrite <- Hsame. Qed.

Lemma create_document_all {A} `{Dumpable A} (c : string) (x : A) (w : world) :
  store_all P w → (∀ o, P c (<["_id" := VOid o]> (model_dump x))) →
  has_post (create_document c x) w (λ _ w', store_all P w').
Proof.
  intros Hall HP. destruct (db w) as [d|] eqn:Hdb.
  - eapply has_post_mono; [apply create_document_post; by eexists|].
    intros r w' (_ & new & [Hc Ho] & Hnew) c' y Hy.
    destruct (decide (c' = c)) as [->|Hne].
    + rewrite Hc in Hy. apply elem_of_app in Hy as [Hy|Hy]; [by apply (Hall c)|].
      destruct Hnew as [->|[o ->]]; [inversion Hy|].
      apply list_elem_of_singleton in Hy as ->. apply HP.
    + apply (Hall c'). by rewrite <- Ho.
  - unfold has_post.
    assert (db (create_document c x w).2 = None) as Hoff.
    { unfold create_document, bind, log_call, modify, store_op. simpl. by rewrite Hdb. }
    intros c' y Hy. unfold stored in Hy. rewrite Hoff in Hy. inversion Hy.
Qed.

Lemma create_route_all {A} `{Dumpable A} (c : string) (x : A) (w : world) :
  store_all P w → (∀ o, P c (<["_id" := VOid o]> (model_dump x))) →
  store_all P ((_id <- create_document c x ;; ret (Id _id)) w).2.
Proof.
  intros Hall HP. pose proof (create_document_all c x w Hall HP) as Hpost.
  unfold has_post, bind, ret in *. by destruct (create_document c x w) as [[i|e] w1].
Qed.

Lemma for_each_create_all (c : string) (xs : list doc) (w : world) :
  store_all P w → Forall (λ l : doc, ∀ o, P c (<["_id" := VOid o]> l)) xs →
  has_post (for_each xs (λ x, create_document c x ;;; ret tt)) w
    (λ _ w', store_all P w').
Proof.
  revert w. induction xs as [|x xs IH]; intros w Hall Hxs; [done|].
  apply Forall_cons in Hxs as [Hx Hxs].
  simpl. apply has_post_bind, has_post_bind.
  eapply has_post_mono; [by apply create_document_all|].
  intros [a|e] w1 Hall1; [|done]. unfold has_post at 1. simpl. by apply IH.
Qed.

Lemma seed_stage_all (c : string) (xs : list doc) (w : world) :
  store_all P w → Forall (λ l : doc, ∀ o, P c (<["_id" := VOid o]> l)) xs →
  ∀ (Q : outcome unit → world → Prop),
    (∀ r w', store_all P w' → Q r w') →
    has_post (n <- count_documents c ∅ ;;
              if decide (n = 0%nat)
              then for_each xs (λ x, create_document c x ;;; ret tt)
              else ret tt) w Q.
Proof.
  intros Hall Hxs Q HQ. apply has_post_bind. unfold has_post at 1.
  pose proof (count_documents_same c ∅ w) as Hs.
  destruct (count_documents c ∅ w) as [[n|e] w1]; cbn [fst snd] in *.
  - assert (store_all P w1) as Hall1 by (by eapply store_all_same).
    case_decide.
    + eapply has_post_mono; [by apply for_each_create_all|]. intros; by apply HQ.
    + by apply HQ.
  - apply HQ. by eapply store_all_same.
Qed.

Lemma seed_demo_all (w : world) :
  store_all P w → store_all P (seed_demo w).2.
Proof.
  intros Hall.
  pose proof (seed_stage_all "lesson" seed_lessons w Hall P_seed_lessons
                (λ _ w', store_all P w') (λ _ _ Hw, Hw)) as HL.
  unfold has_post, seed_demo, try_except, seed_demo_body, bind, gets, raise, ret in *.
  destruct (db w) as [d|] eqn:Hdb; [|done].
  destruct (count_documents "lesson" ∅ w) as [[n|e] w1]; [|done].
  destruct ((if decide (n = 0%nat) then for_each seed_lessons _ else _) w1)
    as [[[]|e] w2]; [|done].
  cbn [fst snd] in HL.
  pose proof (seed_stage_all "flashcard" seed_cards w2 HL P_seed_cards
                (λ _ w', store_all P w') (λ _ _ Hw, Hw)) as HF.
  unfold has_post, bind, ret in HF.
  destruct (count_documents "flashcard" ∅ w2) as [[m|e] w3]; [|done].
  by destruct ((if decide (m = 0%nat) then for_each seed_cards _ else _) w3)
    as [[[]|e] w4].
Qed.

Lemma app_preserves_all (r : request) (w : world) :
  store_all P w → store_all P (app r w).2.
Proof.
  intros Hall. destruct r; cbn [app]; rewrite ?serve_state;
    try (eapply store_all_same; [|exact Hall]; intros c;
         first [apply read_route_same | apply test_database_same | done]).
  - by apply seed_demo_all.
  - unfold post_lessons, with_body. destruct (validate_Lesson body0); [done|].
    rewrite serve_state. by apply create_route_all.
  - unfold post_quizzes, with_body. destruct (validate_Quiz body0); [done|].
    rewrite serve_state. by apply create_route_all.
  - unfold post_flashcards, with_body. destruct (validate_Flashcard body0); [done|].
    rewrite serve_state. by apply create_route_all.
  - apply (create_route_all "progress" (strip_none (model_dump payload))); [done|].
    apply P_progress.
Qed.

Lemma run_preserves_all (rs : list request) (w : world) :
  store_all P w → store_all P (run rs w).
Proof.
  revert w. induction rs as [|r rs IH]; intros w Hall; [done|].
  simpl. apply IH. by apply app_preserves_all.
Qed.
End store_invariant.

Lemma seed_lessons_shaped :
  Forall (λ l : doc, ∀ o, schema_shaped "lesson" (<["_id" := VOid o]> l)) seed_lessons.
Proof.
  repeat constructor; intros o; exists o; left; (split; [done|]).
  - by exists (Build_Lesson "Spanish" "Basics: Greetings" "A1"
                 "Hola, ¿cómo estás? Learn common greetings and introductions."
                 ["Greet someone"; "Introduce yourself"; "Say goodbye"]).
  - by exists (Build_Lesson "French" "Basics: Numbers" "A1"
                 "Un, deux, trois... Learn numbers 1-20 with pronunciation tips."
                 ["Count to 20"; "Ask and tell age"]).
Qed.

Lemma seed_cards_shaped :
  Forall (λ l : doc, ∀ o, schema_shaped "flashcard" (<["_id" := VOid o]> l)) seed_cards.
Proof.
  repeat constructor; intros o; exists o; right; right; left; (split; [done|]).
  - by exists (Build_Flashcard "Spanish" "Hola" "Hello" (Some "Hola, Juan!")).
  - by exists (Build_Flashcard "Spanish" "Adiós" "Goodbye" (Some "Adiós, hasta mañana.")).
  - by exists (Build_Flashcard "French" "Merci" "Thank you" (Some "Merci beaucoup!")).
Qed.

(** X15. The routes keep the store well shaped.  If every stored document
    is the dump of a payload of its collection's schema under an ObjectId
    (Lesson, Quiz, Flashcard; for Progress an update without its null
    fields) and no other collection holds anything, then this is still so
    after any sequence of requests: the seed records have the shape of
    their schemas, and nothing else is ever written. *)
Theorem requests_keep_store_shaped `{PyRuntime} (rs : list request) (w : world) :
  store_all schema_shaped w → store_all schema_shaped (run rs w).
Proof.
  apply run_preserves_all.
  - intros p o. exists o. left. eauto.
  - intros p o. exists o. right; left. eauto.
  - intros p o. exists o. right; right; left. eauto.
  - intros p o. exists o. right; right; right. eauto.
  - apply seed_lessons_shaped.
  - apply seed_cards_shaped.
Qed.

Lemma requests_keep_store_shaped_witness :
  store_all schema_shaped
    (@run sample_runtime
       [POST_seed; POST_lessons (model_dump greetings_lesson);
        POST_progress (Build_ProgressUpdate "u1" None None None (Some 3) None)]
       empty_world).
Proof.
  apply (@requests_keep_store_shaped sample_runtime).
  intros c x Hx. vm_compute in Hx. inversion Hx.
Defined.

(** ** The diagnostic route, connected *)

(** X16. With a connected store whose listing of collections meets no
    fault, [GET /test] reports the working status: the database name (or
    the connected mark when the handle has none), whether [DATABASE_URL] is
    set to a non-empty value, and the names of at most the first 10
    collections. *)
Theorem test_database_connected (w : world) (d : database) :
  db w = Some d → ready d →
  (test_database w).1
  = Return (Document
      {[ "backend" := VStr "✅ Running";
         "database" := VStr "✅ Connected & Working";
         "database_url" := VStr (if truthy (environ w !! "DATABASE_URL")
                                 then "✅ Set" else "❌ Not Set");
         "database_name" := VStr (default "✅ Connected" (db_name d));
         "connection_status" := VStr "Connected";
         "collections" := VList (VStr <$> take 10 (map_to_list (collections d)).*1) ]}).
Proof.
  intros Hdb Hr. destruct w as [dbo env cs]. simpl in Hdb. subst dbo.
  destruct d as [name colls o p]. unfold ready in Hr. simpl in Hr.
  destruct p as [|[msg|] rest]; [|done|]; destruct name; reflexivity.
Qed.

Lemma test_database_connected_witness :
  (test_database sample_world).1
  = Return (Document
      {[ "backend" := VStr "✅ Running";
         "database" := VStr "✅ Connected & Working";
         "database_url" := VStr "❌ Not Set";
         "database_name" := VStr "langlearn";
         "connection_status" := VStr "Connected";
         "collections" := VList [VStr "flashcard"; VStr "lesson"] ]}).
Proof.
  assert (db sample_world = Some sample_db) as Hdb by reflexivity.
  assert (ready sample_db) as Hr by (vm_compute; exact I).
  rewrite (test_database_connected sample_world sample_db Hdb Hr).
  vm_compute. reflexivity.
Defined.

(** ** Truncated messages *)

Lemma str_prefix_is_prefix (n : nat) (s : string) :
  ∃ rest, s = str_prefix n s +:+ rest.
Proof.
  revert n. induction s as [|c r IH]; intros n; [by exists ""|].
  simpl. destruct (is_continuation c).
  - destruct (IH n) as [rest Hrest]. exists rest. rewrite Hrest at 1. reflexivity.
  - destruct n as [|n]; [by eexists|].
    destruct (IH n) as [rest Hrest]. exists rest. rewrite Hrest at 1. reflexivity.
Qed.

Lemma str_prefix_codepoints (n : nat) (s : string) :
  (codepoints (str_prefix n s) ≤ n)%nat.
Proof.
  revert n. induction s as [|c r IH]; intros n; simpl; [lia|].
  destruct (is_continuation c) eqn:Hc; simpl.
  - rewrite Hc. apply IH.
  - destruct n as [|n]; simpl; [lia|]. rewrite Hc. specialize (IH n). lia.
Qed.

Lemma str_prefix_short (n : nat) (s : string) :
  (codepoints s ≤ n)%nat → str_prefix n s = s.
Proof.
  revert n. induction s as [|c r IH]; intros n; simpl; [done|].
  destruct (is_continuation c); intros Hle.
  - by rewrite IH.
  - destruct n as [|n]; [lia|]. rewrite IH; [done|lia].
Qed.

(** X17. When listing the collections faults, the status [GET /test]
    reports carries the start of the fault's message, cut after 50 code
    points: the whole message when it has no more than 50, never more than
    50, and never anything that is not in the message. *)
Theorem test_database_truncates (w : world) (d : database) (msg : string)
    (rest : list (option string)) :
  db w = Some d → pending d = Some msg :: rest →
  ∃ shown tail,
    (test_database w).1
    = Return (Document
        {[ "backend" := VStr "✅ Running";
           "database" := VStr ("⚠️  Connected but Error: " +:+ shown);
           "database_url" := VStr (if truthy (environ w !! "DATABASE_URL")
                                   then "✅ Set" else "❌ Not Set");
           "database_name" := VStr (default "✅ Connected" (db_name d));
           "connection_status" := VStr "Connected";
           "collections" := VList [] ]})
    ∧ msg = shown +:+ tail
    ∧ (codepoints shown ≤ 50)%nat
    ∧ ((codepoints msg ≤ 50)%nat → shown = msg).
Proof.
  intros Hdb Hp. destruct (str_prefix_is_prefix 50 msg) as [tail Htail].
  exists (str_prefix 50 msg), tail. split; [|split; [exact Htail|split]].
  - destruct w as [dbo env cs]. simpl in Hdb. subst dbo.
    destruct d as [name colls o p]. simpl in Hp. subst p.
    destruct name; reflexivity.
  - apply str_prefix_codepoints.
  - apply str_prefix_short.
Qed.

Lemma test_database_truncates_witness :
  ∃ shown tail,
    "connection refused" = shown +:+ tail ∧ (codepoints shown ≤ 50)%nat.
Proof.
  pose (d := Database None ∅ 0 [Some "connection refused"]).
  destruct (test_database_truncates (World (Some d) ∅ []) d "connection refused" []
              eq_refl eq_refl) as (shown & tail & _ & Hcut & Hlen & _).
  by exists shown, tail.
Defined.

(** ** Updating progress is not an upsert *)

(** X18. [POST /progress] never replaces a snapshot.  For a user who has
    one, on a connected store whose next two operations meet no fault, an
    update (whatever its fields) is answered with a new identifier and
    stored after the snapshots already there, and [GET
    /progress/{user_id}] run next still returns the user's oldest
    snapshot, not the update. *)
Theorem update_progress_keeps_first `{PyRuntime} (w : world) (d : database)
    (payload : ProgressUpdate) (older newer : list doc) (x : doc) :
  db w = Some d → ready d → ready (advance d) →
  documents d "progress" = older ++ x :: newer →
  (∀ y, y ∈ older → y !! "user_id" ≠ Some (VStr (pu_user_id payload))) →
  x !! "user_id" = Some (VStr (pu_user_id payload)) →
  let w' := (update_progress payload w).2 in
  (update_progress payload w).1 = Return (Id (oid_str (next_oid d)))
  ∧ stored w' "progress"
    = older ++ x :: newer
      ++ [<["_id" := VOid (next_oid d)]> (strip_none (model_dump payload))]
  ∧ (get_progress (pu_user_id payload) w').1 = Return (Document (serialize x)).
Proof.
  intros Hdb Hr Hr' Hdocs Hno Hx w'.
  assert (update_progress payload w
          = (Return (Id (oid_str (next_oid d))),
             World (Some (insert_one "progress" (strip_none (model_dump payload))
                            (advance d)).2)
                   (environ w)
                   (calls w ++ [CallCreate "progress" (strip_none (model_dump payload))])))
    as Hup.
  { unfold update_progress, bind, ret.
    by rewrite (create_document_ready "progress" (strip_none (model_dump payload)) w d). }
  subst w'. rewrite Hup. cbn [fst snd].
  assert (documents (insert_one "progress" (strip_none (model_dump payload)) (advance d)).2
            "progress"
          = older ++ x :: newer
            ++ [<["_id" := VOid (next_oid d)]> (strip_none (model_dump payload))])
    as Hdocs'.
  { transitivity (documents d "progress"
                  ++ [<["_id" := VOid (next_oid d)]> (strip_none (model_dump payload))]).
    - unfold documents at 1. simpl. by rewrite lookup_insert_eq.
    - rewrite Hdocs. by rewrite <- app_assoc. }
  split; [done|]. split; [exact Hdocs'|].
  unfold get_progress, bind, ret.
  erewrite get_documents_ready; [|reflexivity|exact Hr'].
  cbn [fst]. rewrite find_advance.
  by rewrite (find_first_match _ _ _ _ older
                (newer ++ [<["_id" := VOid (next_oid d)]> (strip_none (model_dump payload))])
                x).
Qed.

Lemma update_progress_keeps_first_witness :
  (@get_progress sample_runtime "u1"
     (update_progress (Build_ProgressUpdate "u1" None None None (Some 7) None)
        (World (Some snapshots_db) ∅ [])).2).1
  = Return (Document {[ "id" := VStr "000000000000000000000000";
                        "user_id" := VStr "u1"; "streak_days" := VInt 1 ]}).
Proof.
  destruct (@update_progress_keeps_first sample_runtime (World (Some snapshots_db) ∅ [])
              snapshots_db (Build_ProgressUpdate "u1" None None None (Some 7) None)
              [] [snapshot 1 2] (snapshot 0 1))
    as (_ & _ & Hget).
  - reflexivity.
  - exact I.
  - exact I.
  - reflexivity.
  - intros y Hy. inversion Hy.
  - reflexivity.
  - refine (eq_trans Hget _). vm_compute. reflexivity.
Defined.
